(** * WideBot: the user service's optimistic cache, verified

    A shallow embedding of [UserService] (the client-side user cache with
    optimistic update, rollback on error and a one-slot delete undo) and of
    the record types of [user.model.ts].

    Conventions of the embedding.
    - A JavaScript [number] that holds an id, a page or a length is an
      integer [Z]; an array index produced by [findIndex] is a [nat], with
      [None] standing for the result [-1].
    - A string is a [string] of character codes.
      [String.prototype.toLowerCase] depends on the case tables of the
      platform and is a parameter of every function that calls it; what
      is assumed of it ([folds_ascii]) is that on ASCII text (codes below
      128) it folds exactly the letters [A-Z].
    - An optional property [p?: T] is an [option T].
    - The two [BehaviorSubject]s and the private field [lastDeletedUser] are
      the fields of [State]; [next v] on a subject overwrites its field.
    - [HttpClient] is the record of the requests issued so far ([requests]);
      what the backend answers is supplied by the environment as a [Reply].
    - An [Observable] returned by the service is cold: the request leaves
      when the caller subscribes ([subscribe]) and the [tap] / [catchError]
      handlers run when the reply arrives ([deliver]). *)

From stdpp Require Import base option list strings gmap.
From Stdlib Require Import ZArith Ascii String Bool Lia Sorted.

Local Open Scope string_scope.
Local Open Scope list_scope.
Local Open Scope Z_scope.

(** ** user.model.ts *)

Inductive UserRole : Type := role_admin | role_user.
Inductive UserStatus : Type := status_active | status_inactive.

#[global] Instance UserRole_eq_dec : EqDecision UserRole.
Proof. solve_decision. Defined.
#[global] Instance UserStatus_eq_dec : EqDecision UserStatus.
Proof. solve_decision. Defined.

(** [interface User] *)
Record User : Type := mkUser {
  id : Z;
  username : string;
  email : string;
  firstName : string;
  lastName : string;
  role : UserRole;
  status : UserStatus;
  phone : option string;
  address : option string;
  dateOfBirth : option string;
  department : option string;
  joinDate : option string;
  avatar : option string;
  lastActive : option string
}.

#[global] Instance User_eq_dec : EqDecision User.
Proof. solve_decision. Defined.

(** [Partial<User>]: every property may be absent.  For a property that is
    already optional in [User], [Some None] is a key that is present with
    the value [undefined]; object spread copies it like any other. *)
Module Partial.
Record t : Type := mk {
  id : option Z;
  username : option string;
  email : option string;
  firstName : option string;
  lastName : option string;
  role : option UserRole;
  status : option UserStatus;
  phone : option (option string);
  address : option (option string);
  dateOfBirth : option (option string);
  department : option (option string);
  joinDate : option (option string);
  avatar : option (option string);
  lastActive : option (option string)
}.

(** The object literal with no keys. *)
Definition empty : t :=
  mk None None None None None None None None None None None None None None.
End Partial.

(** [Omit<User, 'id'>] *)
Module OmitId.
Record t : Type := mk {
  username : string;
  email : string;
  firstName : string;
  lastName : string;
  role : UserRole;
  status : UserStatus;
  phone : option string;
  address : option string;
  dateOfBirth : option string;
  department : option string;
  joinDate : option string;
  avatar : option string;
  lastActive : option string
}.
End OmitId.

#[global] Instance OmitId_eq_dec : EqDecision OmitId.t.
Proof. solve_decision. Defined.

(** The non-id properties of a record. *)
Definition omit_id (u : User) : OmitId.t :=
  OmitId.mk (username u) (email u) (firstName u) (lastName u) (role u)
    (status u) (phone u) (address u) (dateOfBirth u) (department u)
    (joinDate u) (avatar u) (lastActive u).

(** The object handed to [createUser].  Its static type is
    [Omit<User, 'id'>]; types are structural, so at run time it is either an
    object without an [id] key or a full [User] (as in [undoDelete]). *)
Inductive Body : Type :=
  | without_id (n : OmitId.t)
  | with_id (u : User).

Definition body_fields (b : Body) : OmitId.t :=
  match b with
  | without_id n => n
  | with_id u => omit_id u
  end.

Definition body_id (b : Body) : option Z :=
  match b with
  | without_id _ => None
  | with_id u => Some (id u)
  end.

(** [{ ...orig, ...patch }] *)
Definition spread (orig : User) (patch : Partial.t) : User :=
  {| id := default (id orig) (Partial.id patch);
     username := default (username orig) (Partial.username patch);
     email := default (email orig) (Partial.email patch);
     firstName := default (firstName orig) (Partial.firstName patch);
     lastName := default (lastName orig) (Partial.lastName patch);
     role := default (role orig) (Partial.role patch);
     status := default (status orig) (Partial.status patch);
     phone := default (phone orig) (Partial.phone patch);
     address := default (address orig) (Partial.address patch);
     dateOfBirth := default (dateOfBirth orig) (Partial.dateOfBirth patch);
     department := default (department orig) (Partial.department patch);
     joinDate := default (joinDate orig) (Partial.joinDate patch);
     avatar := default (avatar orig) (Partial.avatar patch);
     lastActive := default (lastActive orig) (Partial.lastActive patch) |}.

(** [interface UserFilter] *)
Module UserFilter.
Record t : Type := mk {
  searchTerm : option string;
  role : option UserRole;
  status : option UserStatus;
  department : option string
}.
End UserFilter.

(** [interface PaginatedResponse<T>] *)
Record PaginatedResponse (T : Type) : Type := mkPage {
  data : list T;
  total : Z;
  page : Z;
  pageSize : Z;
  totalPages : Z
}.
Arguments mkPage {T}.
Arguments data {T}.
Arguments total {T}.
Arguments page {T}.
Arguments pageSize {T}.
Arguments totalPages {T}.

(** ** The collaborators: errors, requests, replies, observables *)

(** What an observable can fail with: a JavaScript [Error] built by the
    service itself, or the failure the HTTP client reports. *)
Inductive Err : Type :=
  | Error (message : string)
  | HttpErrorResponse (http_status : Z) (statusText : string).

(** The requests of the service that change the backend. *)
Inductive HttpRequest : Type :=
  | POST (body : Body)
  | PUT (target : Z) (body : User)
  | DELETE (target : Z).

(** The backend's answer to one request. *)
Inductive Reply (A : Type) : Type :=
  | Ack (a : A)
  | Fail (e : Err).
Arguments Ack {A}.
Arguments Fail {A}.

(** What a subscriber receives. *)
Inductive Notification (A : Type) : Type :=
  | next (a : A)
  | error (e : Err).
Arguments next {A}.
Arguments error {A}.

(** The observables the service returns.  The three request pipes carry the
    variables their [tap] and [catchError] closures captured. *)
Inductive Observable : Type -> Type :=
  | throwError {A : Type} (e : Err) : Observable A
  | post_pipe (body : Body) : Observable User
  | put_pipe (target : Z) (updatedUser : User) (originalUsers : list User)
      : Observable User
  | delete_pipe (target : Z) (currentUsers : list User) : Observable unit.

(** ** UserService: state *)

(** [{ user: User; index: number }] *)
Record Deleted : Type := mkDeleted {
  user : User;
  index : nat
}.

Record State : Type := mkState {
  usersState : list User;
  loadingState : bool;
  lastDeletedUser : option Deleted;
  requests : list HttpRequest
}.

Definition usersState_next (v : list User) (st : State) : State :=
  mkState v (loadingState st) (lastDeletedUser st) (requests st).

Definition loadingState_next (v : bool) (st : State) : State :=
  mkState (usersState st) v (lastDeletedUser st) (requests st).

Definition set_lastDeletedUser (v : option Deleted) (st : State) : State :=
  mkState (usersState st) (loadingState st) v (requests st).

Definition issue (r : HttpRequest) (st : State) : State :=
  mkState (usersState st) (loadingState st) (lastDeletedUser st)
    (requests st ++ [r]).

(** [getCurrentUsers] *)
Definition getCurrentUsers (st : State) : list User := usersState st.

(** The ids held by the cache, in order. *)
Definition ids (st : State) : list Z := id <$> usersState st.

(** [Array.prototype.findIndex] *)
Fixpoint findIndex {A : Type} (p : A -> bool) (l : list A) : option nat :=
  match l with
  | [] => None
  | x :: l' => if p x then Some O else S <$> findIndex p l'
  end.

(** The callback [u => u.id === id]. *)
Definition has_id (i : Z) (u : User) : bool := id u =? i.

(** ** UserService: the mutating operations *)

(** [createUser]: the call only raises the loading flag and builds the
    pipe around [http.post]. *)
Definition createUser (body : Body) (st : State) : State * Observable User :=
  let st := loadingState_next true st in
  (st, post_pipe body).

(** [updateUser]: the call captures the list, applies the merged record
    optimistically and builds the pipe around [http.put]. *)
Definition updateUser (i : Z) (patch : Partial.t) (st : State)
    : State * Observable User :=
  let st := loadingState_next true st in
  let originalUsers := usersState st in
  match findIndex (has_id i) originalUsers with
  | None =>
      (loadingState_next false st, throwError (Error "User not found"))
  | Some userIndex =>
      match originalUsers !! userIndex with
      | Some found =>
          let updatedUser := spread found patch in
          let optimisticUsers := <[userIndex := updatedUser]> originalUsers in
          (usersState_next optimisticUsers st,
           put_pipe i updatedUser originalUsers)
      | None =>
          (* not reachable: [findIndex] answers with an index of the list,
             see [findIndex_Some] *)
          (loadingState_next false st, throwError (Error "User not found"))
      end
  end.

(** [deleteUser]: the call remembers the record and its index, removes the
    record optimistically and builds the pipe around [http.delete]. *)
Definition deleteUser (i : Z) (st : State) : State * Observable unit :=
  let st := loadingState_next true st in
  let currentUsers := usersState st in
  match findIndex (has_id i) currentUsers with
  | None =>
      (loadingState_next false st, throwError (Error "User not found"))
  | Some userIndex =>
      match currentUsers !! userIndex with
      | Some found =>
          let st := set_lastDeletedUser
                      (Some {| user := found; index := userIndex |}) st in
          let optimisticUsers :=
            List.filter (fun u => negb (has_id i u)) currentUsers in
          (usersState_next optimisticUsers st, delete_pipe i currentUsers)
      | None =>
          (* not reachable, as in [updateUser] *)
          (loadingState_next false st, throwError (Error "User not found"))
      end
  end.

(** [undoDelete]: [None] is the result [null]. *)
Definition undoDelete (st : State) : State * option (Observable User) :=
  match lastDeletedUser st with
  | None => (st, None)
  | Some d =>
      let st := set_lastDeletedUser None st in
      let '(st, o) := createUser (with_id (user d)) st in
      (st, Some o)
  end.

(** Subscribing to a pipe sends its request; an observable made by
    [throwError] sends nothing. *)
Definition subscribe {A : Type} (o : Observable A) (st : State) : State :=
  match o with
  | throwError _ => st
  | post_pipe body => issue (POST body) st
  | put_pipe target updatedUser _ => issue (PUT target updatedUser) st
  | delete_pipe target _ => issue (DELETE target) st
  end.

(** The handlers of a pipe, run on the state the cache has when the reply
    arrives.  An observable made by [throwError] awaits no reply and
    reports its error. *)
Definition deliver {A : Type} (o : Observable A)
    : Reply A -> State -> State * Notification A :=
  match o in Observable A return Reply A -> State -> State * Notification A with
  | throwError e => fun _ st => (st, error e)
  | post_pipe _ => fun r st =>
      match r with
      | Ack newUser =>
          let currentUsers := usersState st in
          let st := usersState_next (currentUsers ++ [newUser]) st in
          (loadingState_next false st, next newUser)
      | Fail e => (loadingState_next false st, error e)
      end
  | put_pipe target _ originalUsers => fun r st =>
      match r with
      | Ack serverUser =>
          let currentUsers := usersState st in
          let st :=
            match findIndex (has_id target) currentUsers with
            | Some idx => usersState_next (<[idx := serverUser]> currentUsers) st
            | None => st
            end in
          (loadingState_next false st, next serverUser)
      | Fail e =>
          let st := usersState_next originalUsers st in
          (loadingState_next false st, error e)
      end
  | delete_pipe _ currentUsers => fun r st =>
      match r with
      | Ack tt => (loadingState_next false st, next tt)
      | Fail e =>
          let st := usersState_next currentUsers st in
          let st := set_lastDeletedUser None st in
          (loadingState_next false st, error e)
      end
  end.

(** An operation run to completion with nothing in between: call, subscribe,
    reply. *)
Definition settle {A : Type} (call : State * Observable A) (r : Reply A)
    : State * Notification A :=
  let '(st, o) := call in deliver o r (subscribe o st).

(** The four operations a caller can run one after the other, each with the
    reply the backend gives to it. *)
Inductive Op : Type :=
  | Create (body : Body) (r : Reply User)
  | Update (i : Z) (patch : Partial.t) (r : Reply User)
  | Delete (i : Z) (r : Reply unit)
  | UndoDelete (r : Reply User).

Definition step (op : Op) (st : State) : State :=
  match op with
  | Create body r => fst (settle (createUser body st) r)
  | Update i patch r => fst (settle (updateUser i patch st) r)
  | Delete i r => fst (settle (deleteUser i st) r)
  | UndoDelete r =>
      match undoDelete st with
      | (st', Some o) => fst (settle (st', o) r)
      | (st', None) => st'
      end
  end.

Definition run (ops : list Op) (st : State) : State :=
  foldl (fun st op => step op st) st ops.

(** ** UserService: the query layer *)

(** The case fold of one ASCII character: a letter [A-Z] becomes the letter
    [a-z], every other character stays. *)
Definition lower_char (c : ascii) : ascii :=
  let n := N_of_ascii c in
  if ((65 <=? n) && (n <=? 90))%N then ascii_of_N (n + 32) else c.

(** The case fold of ASCII text, character by character. *)
Fixpoint ascii_lower (s : string) : string :=
  match s with
  | EmptyString => EmptyString
  | String c s' => String (lower_char c) (ascii_lower s')
  end.

(** ASCII text: every character code is below 128. *)
Definition ascii_char (c : ascii) : bool := (N_of_ascii c <? 128)%N.

Fixpoint ascii_text (s : string) : bool :=
  match s with
  | EmptyString => true
  | String c s' => ascii_char c && ascii_text s'
  end.

(** What is assumed of [String.prototype.toLowerCase]: on ASCII text it
    returns the text with the letters [A-Z] folded.  (On other text it
    folds further letters and may change the length; nothing is assumed
    there.) *)
Definition folds_ascii (toLowerCase : string -> string) : Prop :=
  forall s, ascii_text s = true -> toLowerCase s = ascii_lower s.

(** [String.prototype.includes]: does [needle] occur in [hay]? *)
Fixpoint includes (hay needle : string) {struct hay} : bool :=
  if String.prefix needle hay then true
  else match hay with
       | EmptyString => false
       | String _ hay' => includes hay' needle
       end.

(** The test [if (s)] on a string: the empty string is falsy. *)
Definition truthy (s : string) : bool := negb (String.eqb s "").

(** [filterUsers]; [toLowerCase] is [String.prototype.toLowerCase]. *)
Definition filterUsers (toLowerCase : string -> string) (filter : UserFilter.t)
    (st : State) : list User :=
  let filtered := usersState st in
  let filtered :=
    match UserFilter.searchTerm filter with
    | Some term =>
        if truthy term then
          let searchLower := toLowerCase term in
          List.filter (fun u =>
            includes (toLowerCase (firstName u)) searchLower ||
            includes (toLowerCase (lastName u)) searchLower ||
            includes (toLowerCase (email u)) searchLower ||
            includes (toLowerCase (username u)) searchLower) filtered
        else filtered
    | None => filtered
    end in
  let filtered :=
    match UserFilter.role filter with
    | Some r => List.filter (fun u => bool_decide (role u = r)) filtered
    | None => filtered
    end in
  let filtered :=
    match UserFilter.status filter with
    | Some s => List.filter (fun u => bool_decide (status u = s)) filtered
    | None => filtered
    end in
  let filtered :=
    match UserFilter.department filter with
    | Some d =>
        if truthy d then
          List.filter (fun u => bool_decide (department u = Some d)) filtered
        else filtered
    | None => filtered
    end in
  filtered.

(** [Array.prototype.slice] with two integer arguments. *)
Definition slice {A : Type} (start end_ : Z) (l : list A) : list A :=
  let len := Z.of_nat (List.length l) in
  let k := if start <? 0 then Z.max (len + start) 0 else Z.min start len in
  let final := if end_ <? 0 then Z.max (len + end_) 0 else Z.min end_ len in
  take (Z.to_nat (final - k)) (drop (Z.to_nat k) l).

(** [Math.ceil(a / b)] for integers [a] and [b <> 0]: the quotient rounded
    towards plus infinity ([Z.div] rounds towards minus infinity). *)
Definition Math_ceil_div (a b : Z) : Z := - ((- a) / b).

(** [getPaginatedUsers]: the page computed for the list the cache holds.
    The observable it returns recomputes it at every emission. *)
Definition getPaginatedUsers (toLowerCase : string -> string)
    (page pageSize : Z) (filter : option UserFilter.t) (st : State)
    : PaginatedResponse User :=
  let users := usersState st in
  let filtered :=
    match filter with
    | Some f => filterUsers toLowerCase f st
    | None => users
    end in
  let total := Z.of_nat (List.length filtered) in
  let totalPages := Math_ceil_div total pageSize in
  let start := (page - 1) * pageSize in
  let end_ := start + pageSize in
  let data := slice start end_ filtered in
  mkPage data total page pageSize totalPages.

(** ** The filter as the specification words it *)

(** Two characters that differ at most in case: the same code, or the
    codes of one letter, capital ([A-Z], 65 to 90) and small (32 more). *)
Definition same_letter (c d : ascii) : Prop :=
  let n := N_of_ascii c in
  let m := N_of_ascii d in
  (n = m \/ (65 <= n <= 90 /\ m = n + 32) \/ (65 <= m <= 90 /\ n = m + 32))%N.

(** Two texts that differ at most in the case of their letters. *)
Fixpoint equal_ignoring_case (s t : string) : Prop :=
  match s, t with
  | EmptyString, EmptyString => True
  | String c s', String d t' => same_letter c d /\ equal_ignoring_case s' t'
  | _, _ => False
  end.

(** [needle] occurs in [hay] when case is ignored: some stretch of [hay]
    equals [needle] up to the case of its letters. *)
Definition ci_substring (needle hay : string) : Prop :=
  exists pre mid post : string,
    hay = (pre ++ mid ++ post)%string /\ equal_ignoring_case mid needle.

(** The fields a search term is looked for in are ASCII text. *)
Definition ascii_names (u : User) : bool :=
  ascii_text (firstName u) && ascii_text (lastName u) &&
  ascii_text (email u) && ascii_text (username u).

(** The search term, when there is one, is ASCII text. *)
Definition ascii_term (c : UserFilter.t) : bool :=
  match UserFilter.searchTerm c with
  | Some term => ascii_text term
  | None => true
  end.

(** The conjunction of the criteria that are provided: the search term
    against the four name fields, the other three by exact match. *)
Definition satisfies (c : UserFilter.t) (u : User) : Prop :=
  (forall term, UserFilter.searchTerm c = Some term ->
     ci_substring term (firstName u) \/ ci_substring term (lastName u) \/
     ci_substring term (email u) \/ ci_substring term (username u)) /\
  (forall r, UserFilter.role c = Some r -> role u = r) /\
  (forall s, UserFilter.status c = Some s -> status u = s) /\
  (forall d, UserFilter.department c = Some d -> department u = Some d).

(** The test [filterUsers] applies to one record, all criteria at once,
    each under its guard. *)
Definition satisfiesb (toLowerCase : string -> string) (c : UserFilter.t)
    (u : User) : bool :=
  match UserFilter.searchTerm c with
  | Some term =>
      if truthy term then
        let searchLower := toLowerCase term in
        includes (toLowerCase (firstName u)) searchLower ||
        includes (toLowerCase (lastName u)) searchLower ||
        includes (toLowerCase (email u)) searchLower ||
        includes (toLowerCase (username u)) searchLower
      else true
  | None => true
  end &&
  match UserFilter.role c with
  | Some r => bool_decide (role u = r)
  | None => true
  end &&
  match UserFilter.status c with
  | Some s => bool_decide (status u = s)
  | None => true
  end &&
  match UserFilter.department c with
  | Some d => if truthy d then bool_decide (department u = Some d) else true
  | None => true
  end.

(** A criteria object in which an empty department counts as omitted. *)
Definition without_empty_department (c : UserFilter.t) : UserFilter.t :=
  UserFilter.mk (UserFilter.searchTerm c) (UserFilter.role c)
    (UserFilter.status c)
    (match UserFilter.department c with
     | Some d => if truthy d then Some d else None
     | None => None
     end).

(** ** Well-behaved backends *)

(** What the invariant asks of one operation, on the state it starts from:
    an acknowledged create (also the one an undo issues) returns an id the
    cache does not hold; an acknowledged update returns the record under
    the id that was asked for, and its patch leaves the id alone. *)
Definition op_trusted (op : Op) (st : State) : Prop :=
  match op with
  | Create _ (Ack newUser) => id newUser ∉ ids st
  | Update i patch (Ack serverUser) =>
      id serverUser = i /\
      (Partial.id patch = None \/ Partial.id patch = Some i)
  | UndoDelete (Ack newUser) =>
      lastDeletedUser st = None \/ id newUser ∉ ids st
  | _ => True
  end.

Fixpoint trusted (ops : list Op) (st : State) : Prop :=
  match ops with
  | [] => True
  | op :: ops' => op_trusted op st /\ trusted ops' (step op st)
  end.

(** ** Sample data *)

Module Sample.
Definition johndoe : User :=
  mkUser 1 "johndoe" "john.doe@example.com" "John" "Doe" role_admin
    status_active (Some "+1 (555) 123-4567") None (Some "1985-03-15")
    (Some "Engineering") (Some "2020-01-15") None None.

Definition janesmith : User :=
  mkUser 2 "janesmith" "jane.smith@example.com" "Jane" "Smith" role_user
    status_active None None (Some "1990-07-22") (Some "Marketing")
    (Some "2021-03-20") None None.

Definition mikejohnson : User :=
  mkUser 3 "mikejohnson" "mike.johnson@example.com" "Mike" "Johnson"
    role_user status_inactive None None None (Some "Sales")
    (Some "2019-08-10") None None.

(** A record without a department. *)
Definition guest : User :=
  mkUser 4 "guest" "guest@example.com" "Guest" "Account" role_user
    status_active None None None None None None None.

Definition cache (l : list User) : State := mkState l false None [].

Definition three : State := cache [johndoe; janesmith; mikejohnson].

(** The patch [{ lastName: 'Roe', department: undefined }]. *)
Definition rename : Partial.t :=
  Partial.mk None None None None (Some "Roe") None None None None None
    (Some None) None None None.

(** The patch [{ id: 2 }]. *)
Definition renumber : Partial.t :=
  Partial.mk (Some 2) None None None None None None None None None None
    None None None.

Definition unavailable : Err := HttpErrorResponse 503 "Service Unavailable".

(** A backend that stores the body it is sent under the id [101]. *)
Definition store (b : Body) : User :=
  let n := body_fields b in
  mkUser 101 (OmitId.username n) (OmitId.email n) (OmitId.firstName n)
    (OmitId.lastName n) (OmitId.role n) (OmitId.status n) (OmitId.phone n)
    (OmitId.address n) (OmitId.dateOfBirth n) (OmitId.department n)
    (OmitId.joinDate n) (OmitId.avatar n) (OmitId.lastActive n).

(** Twenty-five records, ids [1] to [25]. *)
Definition numbered (n : Z) : User :=
  mkUser n "user" "user@example.com" "First" "Last" role_user
    status_active None None None None None None None.

Definition twentyfive : State :=
  cache (numbered <$> (Z.of_nat <$> seq 1 25)).


Definition active_users : UserFilter.t :=
  UserFilter.mk None (Some role_user) (Some status_active) None.

Definition search_JO : UserFilter.t :=
  UserFilter.mk (Some "JO") None None None.
End Sample.

(** ** Scenarios *)

(** An update of record 2 is in flight when record 2 is deleted. *)
Definition update_in_flight : State * Observable User :=
  let '(st, o) := updateUser 2 Sample.rename Sample.three in
  (subscribe o st, o).

Definition deleted_meanwhile : State :=
  fst (settle (deleteUser 2 (fst update_in_flight)) (Ack tt)).

(** The backend hands out an id that is already in the cache. *)
Definition colliding_create : list Op :=
  [Create (without_id (omit_id Sample.guest)) (Ack Sample.guest)].

Definition with_guest : State :=
  Sample.cache [Sample.johndoe; Sample.guest].

(** A well-behaved run: create, update, delete, undo. *)
Definition well_behaved_run : list Op :=
  [Create (without_id (omit_id Sample.guest))
     (Ack (Sample.store (without_id (omit_id Sample.guest))));
   Update 2 Sample.rename (Ack (spread Sample.janesmith Sample.rename));
   Delete 1 (Ack tt);
   UndoDelete (Ack (Sample.numbered 102))].

(** ** UserService: loading and reading *)

(** [loadUsers], the call: the loading flag is raised and the whole
    collection is asked for.  The GET request changes nothing on the
    backend and is not recorded. *)
Definition loadUsers_call (st : State) : State := loadingState_next true st.

(** [loadUsers], the reply.  A failure is caught: the handler lowers the
    flag and substitutes the empty list, which the subscriber then stores
    like any other answer. *)
Definition loadUsers_reply (r : Reply (list User)) (st : State) : State :=
  let '(users, st) :=
    match r with
    | Ack users => (users, st)
    | Fail _ => ([], loadingState_next false st)
    end in
  let st := usersState_next users st in
  loadingState_next false st.

Definition loadUsers (r : Reply (list User)) (st : State) : State :=
  loadUsers_reply r (loadUsers_call st).

(** Where [getUserById] takes its answer from: [of(user)] for a cached
    record, [http.get] for the backend. *)
Inductive Lookup : Type :=
  | of_cached (u : User)
  | http_get (target : Z).

(** [getUserById]; [List.find] is [Array.prototype.find]. *)
Definition getUserById (i : Z) (st : State) : Lookup :=
  match List.find (has_id i) (usersState st) with
  | Some u => of_cached u
  | None => http_get i
  end.

(** ** UserService: statistics and departments *)

(** The counters of [getUserStatistics]. *)
Definition totalUsers (st : State) : Z :=
  Z.of_nat (List.length (usersState st)).

Definition activeUsers (st : State) : Z :=
  Z.of_nat (List.length
    (List.filter (fun u => bool_decide (status u = status_active))
       (usersState st))).

Definition inactiveUsers (st : State) : Z :=
  Z.of_nat (List.length
    (List.filter (fun u => bool_decide (status u = status_inactive))
       (usersState st))).

(** The string a role is at run time. *)
Definition role_name (r : UserRole) : string :=
  match r with
  | role_admin => "admin"
  | role_user => "user"
  end.

(** [o[key] = (o[key] || 0) + 1] *)
Definition tally (key : string) (o : gmap string Z) : gmap string Z :=
  <[key := default 0 (o !! key) + 1]> o.

(** [usersByRole] of [getUserStatistics]. *)
Definition usersByRole (st : State) : gmap string Z :=
  foldl (fun o u => tally (role_name (role u)) o) ∅ (usersState st).

(** The test [!!dept] on an optional string. *)
Definition truthy_opt (o : option string) : bool :=
  match o with
  | Some s => truthy s
  | None => false
  end.

(** [[...new Set(l)]]: the first occurrences, in order of insertion. *)
Definition Set_spread (l : list string) : list string :=
  foldl (fun seen x => if existsb (String.eqb x) seen then seen else seen ++ [x])
    [] l.

(** [Array.prototype.sort] without a comparator, on ASCII strings: the
    order is that of the character codes, [String.compare].  Equal strings
    cannot be told apart, so the result does not depend on the algorithm;
    this one inserts. *)
Fixpoint sort_insert (x : string) (l : list string) : list string :=
  match l with
  | [] => [x]
  | y :: l' => if String.leb x y then x :: l else y :: sort_insert x l'
  end.

Definition sort (l : list string) : list string := foldr sort_insert [] l.

(** [getDepartments], for the list the cache holds. *)
Definition getDepartments (st : State) : list string :=
  let users := usersState st in
  let departments :=
    omap (fun dept => dept) (List.filter truthy_opt (map department users)) in
  sort (Set_spread departments).

(** The pages [1 .. n]. *)
Definition pages (n : Z) : list Z := Z.of_nat <$> seq 1 (Z.to_nat n).

(** ** AuthService and the route guards *)

Module Auth.
(** [interface LoginCredentials] *)
Record LoginCredentials : Type := mkLogin {
  login_username : string;
  login_password : string
}.

(** An entry of [CREDENTIALS]. *)
Record Credential : Type := mkCredential {
  cred_username : string;
  cred_password : string;
  cred_role : UserRole
}.

(** [Object.values(this.CREDENTIALS)] *)
Definition CREDENTIALS : list Credential :=
  [mkCredential "admin" "admin123" role_admin;
   mkCredential "user" "user123" role_user].

(** [this.MOCK_USERS[role]] *)
Definition MOCK_USERS (r : UserRole) : User :=
  match r with
  | role_admin =>
      mkUser 1 "admin" "admin@widebot.com" "Admin" "User" role_admin
        status_active (Some "+201234567890")
        (Some "123 Admin Street, Cairo, Egypt") None (Some "Management")
        None (Some "https://i.pravatar.cc/150?img=1") None
  | role_user =>
      mkUser 2 "user" "user@widebot.com" "John" "Doe" role_user
        status_active (Some "+201234567891")
        (Some "456 User Lane, Cairo, Egypt") None (Some "Engineering")
        None (Some "https://i.pravatar.cc/150?img=2") None
  end.

(** [interface AuthResponse] *)
Record AuthResponse : Type := mkResponse {
  response_user : User;
  response_token : string;
  expiresIn : Z
}.

(** [interface AuthState] *)
Record AuthState : Type := mkAuth {
  user : option User;
  token : option string;
  isAuthenticated : bool;
  isImpersonating : bool;
  originalUser : option User
}.

(** What [localStorage] holds under a key.  The service writes strings
    ([JSON.stringify(user)], [expiresAt.toString()]); each is kept here as
    the value it encodes. *)
Inductive Stored : Type :=
  | stored_token (t : string)
  | stored_user (u : User)
  | stored_time (at_ms : Z).

(** A call [router.navigate(commands, { queryParams: { returnUrl } })]. *)
Record Navigation : Type := mkNavigation {
  commands : list string;
  returnUrl : option string
}.

(** The service's subject together with the two browser objects it drives. *)
Record World : Type := mkWorld {
  authState : AuthState;
  localStorage : gmap string Stored;
  navigations : list Navigation
}.

(** The value the subject is created with. *)
Definition signed_out : AuthState := mkAuth None None false false None.

(** The service before anyone has logged in, nothing stored. *)
Definition initial : World := mkWorld signed_out ∅ [].

Definition setAuthState (s : AuthState) (w : World) : World :=
  mkWorld s (localStorage w) (navigations w).

Definition setItem (key : string) (v : Stored) (w : World) : World :=
  mkWorld (authState w) (<[key := v]> (localStorage w)) (navigations w).

Definition removeItem (key : string) (w : World) : World :=
  mkWorld (authState w) (delete key (localStorage w)) (navigations w).

Definition navigate (n : Navigation) (w : World) : World :=
  mkWorld (authState w) (localStorage w) (navigations w ++ [n]).

Definition getCurrentAuthState (w : World) : AuthState := authState w.
Definition getCurrentUser (w : World) : option User := user (authState w).
Definition is_authenticated (w : World) : bool := isAuthenticated (authState w).
Definition is_impersonating (w : World) : bool := isImpersonating (authState w).

(** [isAdmin]: [user?.role === 'admin'] *)
Definition isAdmin (w : World) : bool :=
  match getCurrentUser w with
  | Some u => bool_decide (role u = role_admin)
  | None => false
  end.

(** [saveSession]; [now] is what [Date.now()] answers. *)
Definition saveSession (response : AuthResponse) (now : Z) (w : World) : World :=
  let expiresAt := now + expiresIn response * 1000 in
  let w := setItem "auth_token" (stored_token (response_token response)) w in
  let w := setItem "auth_user" (stored_user (response_user response)) w in
  setItem "auth_expires" (stored_time expiresAt) w.

(** [login], run until its observable has emitted.  [mockToken] is what
    [generateMockToken] answers for the user (a string built from the
    clock). *)
Definition login (credentials : LoginCredentials) (mockToken : string)
    (now : Z) (w : World) : World * Notification AuthResponse :=
  let validCredential :=
    List.find (fun cred =>
      String.eqb (cred_username cred) (login_username credentials) &&
      String.eqb (cred_password cred) (login_password credentials))
      CREDENTIALS in
  match validCredential with
  | None => (w, error (Error "Invalid username or password"))
  | Some cred =>
      let response := mkResponse (MOCK_USERS (cred_role cred)) mockToken 3600 in
      let w :=
        setAuthState
          (mkAuth (Some (response_user response))
             (Some (response_token response)) true false None) w in
      (saveSession response now w, next response)
  end.

(** [logout] *)
Definition logout (w : World) : World :=
  let w := setAuthState (mkAuth None None false false None) w in
  let w := removeItem "auth_token" w in
  let w := removeItem "auth_user" w in
  let w := removeItem "auth_expires" w in
  navigate (mkNavigation ["/login"] None) w.

(** How a call that may throw ends. *)
Inductive Outcome : Type :=
  | returned (w : World)
  | thrown (e : Err).

(** [impersonateUser] *)
Definition impersonateUser (u : User) (w : World) : Outcome :=
  let currentState := authState w in
  match user currentState with
  | Some current =>
      if bool_decide (role current = role_admin) then
        let original :=
          if isImpersonating currentState
          then originalUser currentState
          else user currentState in
        returned
          (setAuthState
             (mkAuth (Some u) (token currentState) true true original) w)
      else thrown (Error "Only admins can impersonate users")
  | None => thrown (Error "Only admins can impersonate users")
  end.

(** [stopImpersonation] *)
Definition stopImpersonation (w : World) : World :=
  let currentState := authState w in
  match isImpersonating currentState, originalUser currentState with
  | true, Some original =>
      setAuthState
        (mkAuth (Some original) (token currentState) true false None) w
  | _, _ => w
  end.

(** [authGuard]; [url] is [state.url]. *)
Definition authGuard (url : string) (w : World) : World * bool :=
  if is_authenticated w then (w, true)
  else (navigate (mkNavigation ["/login"] (Some url)) w, false).

(** [roleGuard]; [requiredRoles] is [route.data['roles']]. *)
Definition roleGuard (requiredRoles : option (list string)) (w : World)
    : World * bool :=
  match getCurrentUser w with
  | None => (navigate (mkNavigation ["/login"] None) w, false)
  | Some currentUser =>
      match requiredRoles with
      | None | Some [] => (w, true)
      | Some roles =>
          if existsb (String.eqb (role_name (role currentUser))) roles
          then (w, true)
          else if bool_decide (role currentUser = role_admin)
          then (navigate (mkNavigation ["/admin"] None) w, false)
          else (navigate (mkNavigation ["/user"] None) w, false)
      end
  end.

(** The route [admin] of [app.routes.ts]:
    [canActivate: [authGuard, roleGuard], data: { roles: ['admin'] }]. *)
Definition admin_route_opens (url : string) (w : World) : bool :=
  snd (authGuard url w) && snd (roleGuard (Some ["admin"]) w).

(** The calls that change the auth state, for sequences of them. *)
Inductive AuthOp : Type :=
  | Login (credentials : LoginCredentials) (mockToken : string) (now : Z)
  | Logout
  | Impersonate (u : User)
  | StopImpersonation.

Definition auth_step (op : AuthOp) (w : World) : World :=
  match op with
  | Login credentials mockToken now => fst (login credentials mockToken now w)
  | Logout => logout w
  | Impersonate u =>
      match impersonateUser u w with
      | returned w' => w'
      | thrown _ => w
      end
  | StopImpersonation => stopImpersonation w
  end.

Definition auth_run (ops : list AuthOp) (w : World) : World :=
  foldl (fun w op => auth_step op w) w ops.

(** What every auth state reached from [signed_out] satisfies. *)
Definition consistent (s : AuthState) : Prop :=
  (isAuthenticated s = true <-> is_Some (user s)) /\
  (is_Some (token s) <-> is_Some (user s)) /\
  (isImpersonating s = true ->
     isAuthenticated s = true /\
     originalUser s = Some (MOCK_USERS role_admin)) /\
  (isImpersonating s = false ->
     originalUser s = None /\
     forall u, user s = Some u -> exists r, u = MOCK_USERS r).
End Auth.

(** ** ErrorHandlingService *)

Module ErrorHandling.
(** A value found at run time where the code expects a message.
    [HttpErrorResponse.error] is declared [any], so [error.error?.message]
    need not be a string.  The service only tests such a value with [||]
    and hands it to [new Error], which tell apart: a string (falsy when
    empty), and any other value, known by whether it is truthy and by the
    text [new Error] gets from it ([ToString]; the empty text for
    [undefined]), [None] when the conversion throws. *)
Inductive Value : Type :=
  | a_string (s : string)
  | not_a_string (is_truthy : bool) (shown : option string).

(** The property [error] of an [HttpErrorResponse]: an [ErrorEvent] of the
    browser with its message, or anything else, with what
    [error.error?.message] evaluates to. *)
Inductive Payload : Type :=
  | ErrorEvent (message : string)
  | server_body (message : Value).

(** The properties of [HttpErrorResponse] the service reads. *)
Record HttpFailure : Type := mkFailure {
  status : Z;
  message : string;
  payload : Payload
}.

(** [error.error?.message] *)
Definition payload_message (p : Payload) : Value :=
  match p with
  | ErrorEvent m => a_string m
  | server_body v => v
  end.

(** [a || b] *)
Definition or_else (a b : Value) : Value :=
  match a with
  | a_string s => if truthy s then a else b
  | not_a_string true _ => a
  | not_a_string false _ => b
  end.

(** The statuses [getServerErrorMessage] has a message of its own for. *)
Definition listed : list Z := [400; 401; 403; 404; 409; 422; 500; 503].

(** [getServerErrorMessage]: what it returns at run time. *)
Definition getServerErrorMessage (error : HttpFailure) : Value :=
  match status error with
  | 400 => a_string "Bad request. Please check your input."
  | 401 => a_string "Unauthorized. Please log in again."
  | 403 =>
      a_string
        "Access forbidden. You don't have permission to access this resource."
  | 404 => a_string "Resource not found."
  | 409 => a_string "Conflict. This operation cannot be completed."
  | 422 => a_string "Validation error. Please check your input."
  | 500 => a_string "Internal server error. Please try again later."
  | 503 => a_string "Service unavailable. Please try again later."
  | _ =>
      or_else (payload_message (payload error))
        (or_else (a_string (message error))
           (a_string "An error occurred. Please try again."))
  end.

(** How the observable that [handleError] returns ends for its subscriber:
    with the [Error] built by the factory, or with the [TypeError] that
    [new Error] throws for a value it cannot convert. *)
Inductive Failure : Type :=
  | fails_with (e : Err)
  | fails_with_TypeError.

(** [new Error(v)] *)
Definition new_Error (v : Value) : Failure :=
  match v with
  | a_string s => fails_with (Error s)
  | not_a_string _ (Some s) => fails_with (Error s)
  | not_a_string _ None => fails_with_TypeError
  end.

(** [handleError] *)
Definition handleError (error : HttpFailure) : Failure :=
  let errorMessage :=
    match payload error with
    | ErrorEvent m => a_string ("Network error: " ++ m)%string
    | server_body _ => getServerErrorMessage error
    end in
  new_Error errorMessage.

(** [handleApplicationError], for an [Error] with the given message. *)
Definition handleApplicationError (error_message : string) : string :=
  if truthy error_message then error_message
  else "An unexpected error occurred.".
End ErrorHandling.

(** ** More sample data *)

Module Fixture.
(** A record whose department is the empty string. *)
Definition blank : User :=
  mkUser 5 "blank" "blank@example.com" "Blank" "Dept" role_user
    status_inactive None None None (Some "") None None None.

Definition office : State :=
  Sample.cache [Sample.mikejohnson; Sample.guest; Sample.janesmith; blank;
                Sample.johndoe;
                mkUser 6 "emilydavis" "emily.davis@example.com" "Emily"
                  "Davis" role_admin status_active None None None
                  (Some "Marketing") None None None].

Definition admin_login : Auth.LoginCredentials :=
  Auth.mkLogin "admin" "admin123".

Definition user_login : Auth.LoginCredentials :=
  Auth.mkLogin "user" "user123".

Definition signed_in_admin : Auth.World :=
  fst (Auth.login admin_login "header.payload.signature" 1000 Auth.initial).
End Fixture.

(** ** Small checks of the embedding on the sample data *)

Example update_is_optimistic :
  usersState (fst (updateUser 2 Sample.rename Sample.three)) =
  [Sample.johndoe;
   mkUser 2 "janesmith" "jane.smith@example.com" "Jane" "Roe" role_user
     status_active None None (Some "1990-07-22") None (Some "2021-03-20")
     None None;
   Sample.mikejohnson].
Proof. reflexivity. Qed.

Example delete_is_optimistic :
  usersState (fst (deleteUser 2 Sample.three)) =
    [Sample.johndoe; Sample.mikejohnson] /\
  lastDeletedUser (fst (deleteUser 2 Sample.three)) =
    Some (mkDeleted Sample.janesmith 1).
Proof. split; reflexivity. Qed.

Example filter_role_and_status :
  filterUsers ascii_lower Sample.active_users Sample.three =
    [Sample.janesmith].
Proof. reflexivity. Qed.

Example filter_search_ignores_case :
  filterUsers ascii_lower Sample.search_JO Sample.three =
    [Sample.johndoe; Sample.mikejohnson].
Proof. vm_compute. reflexivity. Qed.

Example slice_examples :
  slice 20 30 (seq 0 25) = seq 20 5 /\ slice 30 40 (seq 0 25) = [] /\
  slice (-3) (-1) (seq 0 25) = [22; 23]%nat.
Proof. repeat split; reflexivity. Qed.

Example ceil_examples :
  Math_ceil_div 25 10 = 3 /\ Math_ceil_div 30 10 = 3 /\ Math_ceil_div 0 10 = 0.
Proof. repeat split; reflexivity. Qed.

(** ** Facts about [findIndex] *)

Section FindIndex.
Context {A : Type} (p : A -> bool).

Lemma findIndex_Some (l : list A) (k : nat) :
  findIndex p l = Some k ->
  exists x, l !! k = Some x /\ p x = true /\
    forall j y, (j < k)%nat -> l !! j = Some y -> p y = false.
Proof.
  revert k. induction l as [|a l IH]; intros k; simpl; [discriminate|].
  destruct (p a) eqn:Hp.
  - intros [= <-]. exists a. repeat split; trivial. intros j y Hj. lia.
  - destruct (findIndex p l) as [k'|]; simpl; [|discriminate].
    intros [= <-]. destruct (IH k' eq_refl) as (x & Hx & Hpx & Hmin).
    exists x. repeat split; trivial.
    intros [|j] y Hj; simpl.
    + intros [= <-]. exact Hp.
    + apply Hmin. lia.
Qed.

Lemma findIndex_None (l : list A) :
  findIndex p l = None <-> forall x, x ∈ l -> p x = false.
Proof.
  induction l as [|a l IH]; simpl.
  - split; [|trivial]. intros _ x Hx. inversion Hx.
  - destruct (p a) eqn:Hp.
    + split; [discriminate|]. intros H.
      rewrite (H a) in Hp; [discriminate|left].
    + destruct (findIndex p l) as [k|]; simpl.
      * split; [discriminate|]. intros H.
        assert (Some k = None) as Hk; [|discriminate].
        apply IH. intros x Hx. apply H. now right.
      * split; [|trivial]. intros _ x Hx.
        apply elem_of_cons in Hx as [->|Hx]; [exact Hp|].
        now apply IH.
Qed.

Lemma findIndex_is_Some (l : list A) :
  is_Some (findIndex p l) <-> exists x, x ∈ l /\ p x = true.
Proof.
  split.
  - intros [k Hk]. destruct (findIndex_Some l k Hk) as (x & Hx & Hpx & _).
    exists x. split; [|exact Hpx]. eapply list_elem_of_lookup_2, Hx.
  - intros (x & Hx & Hpx). destruct (findIndex p l) eqn:E; [eauto|].
    rewrite findIndex_None in E. rewrite (E x Hx) in Hpx. discriminate.
Qed.
End FindIndex.

Lemma has_id_true (i : Z) (u : User) : has_id i u = true <-> id u = i.
Proof. unfold has_id. apply Z.eqb_eq. Qed.

Lemma has_id_false (i : Z) (u : User) : has_id i u = false <-> id u <> i.
Proof. unfold has_id. apply Z.eqb_neq. Qed.

(** A record with the id is in the list exactly when [findIndex] finds it. *)
Lemma findIndex_present (i : Z) (l : list User) :
  i ∈ id <$> l <-> is_Some (findIndex (has_id i) l).
Proof.
  rewrite findIndex_is_Some, list_elem_of_fmap. split.
  - intros (u & -> & Hu). exists u. now rewrite has_id_true.
  - intros (u & Hu & Hp). exists u. apply has_id_true in Hp. now split.
Qed.

Lemma findIndex_absent (i : Z) (l : list User) :
  i ∉ id <$> l <-> findIndex (has_id i) l = None.
Proof.
  rewrite findIndex_present, <- eq_None_not_Some. reflexivity.
Qed.

(** What [findIndex] answers for a present id: the first record with it. *)
Lemma findIndex_found (i : Z) (l : list User) :
  i ∈ id <$> l ->
  exists k u, findIndex (has_id i) l = Some k /\ l !! k = Some u /\ id u = i.
Proof.
  intros [k Hk]%findIndex_present.
  destruct (findIndex_Some _ _ _ Hk) as (u & Hu & Hp & _).
  exists k, u. apply has_id_true in Hp. auto.
Qed.

(** Removing the records of one id does not disturb the search for another. *)
Lemma findIndex_filter_other (i j : Z) (l : list User) :
  i <> j ->
  (fun k => l !! k) <$> findIndex (has_id j) l =
  (fun k => List.filter (fun u => negb (has_id i u)) l !! k) <$>
    findIndex (has_id j) (List.filter (fun u => negb (has_id i u)) l).
Proof.
  intros Hne. induction l as [|a l IH]; simpl; [reflexivity|].
  destruct (has_id i a) eqn:Hi; simpl.
  - apply has_id_true in Hi.
    assert (has_id j a = false) as -> by (apply has_id_false; congruence).
    rewrite <- IH. now destruct (findIndex (has_id j) l).
  - destruct (has_id j a); simpl; [reflexivity|].
    destruct (findIndex (has_id j) l), (findIndex (has_id j) (List.filter _ l));
      simpl in *; congruence.
Qed.

(** ** The calls, case by case *)

Lemma updateUser_found (i : Z) (patch : Partial.t) (st : State) (k : nat)
    (u : User) :
  findIndex (has_id i) (usersState st) = Some k ->
  usersState st !! k = Some u ->
  updateUser i patch st =
    (usersState_next (<[k := spread u patch]> (usersState st))
       (loadingState_next true st),
     put_pipe i (spread u patch) (usersState st)).
Proof. intros Hk Hu. unfold updateUser. simpl. now rewrite Hk, Hu. Qed.

Lemma updateUser_missing (i : Z) (patch : Partial.t) (st : State) :
  findIndex (has_id i) (usersState st) = None ->
  updateUser i patch st =
    (loadingState_next false (loadingState_next true st),
     throwError (Error "User not found")).
Proof. intros Hk. unfold updateUser. simpl. now rewrite Hk. Qed.

Lemma deleteUser_found (i : Z) (st : State) (k : nat) (u : User) :
  findIndex (has_id i) (usersState st) = Some k ->
  usersState st !! k = Some u ->
  deleteUser i st =
    (usersState_next
       (List.filter (fun v => negb (has_id i v)) (usersState st))
       (set_lastDeletedUser (Some (mkDeleted u k))
          (loadingState_next true st)),
     delete_pipe i (usersState st)).
Proof. intros Hk Hu. unfold deleteUser. simpl. now rewrite Hk, Hu. Qed.

Lemma deleteUser_missing (i : Z) (st : State) :
  findIndex (has_id i) (usersState st) = None ->
  deleteUser i st =
    (loadingState_next false (loadingState_next true st),
     throwError (Error "User not found")).
Proof. intros Hk. unfold deleteUser. simpl. now rewrite Hk. Qed.

Lemma undoDelete_pending (st : State) (d : Deleted) :
  lastDeletedUser st = Some d ->
  undoDelete st =
    (loadingState_next true (set_lastDeletedUser None st),
     Some (post_pipe (with_id (user d)))).
Proof. intros Hd. unfold undoDelete. now rewrite Hd. Qed.

Lemma undoDelete_nothing (st : State) :
  lastDeletedUser st = None -> undoDelete st = (st, None).
Proof. intros Hd. unfold undoDelete. now rewrite Hd. Qed.

(** ** Rollback of a failed update *)

(** C1. When the record is present and the backend fails the update, the
    cache holds again, whatever happened to it while the request was in
    flight, exactly the list it held when the update was issued, and the
    subscriber receives the backend's failure.  In particular this holds
    when the update runs to completion with nothing in between. *)
Theorem update_failure_restores_snapshot (st : State) (i : Z)
    (patch : Partial.t) (e : Err) :
  i ∈ ids st ->
  (forall later : State,
     let done := deliver (snd (updateUser i patch st)) (Fail e) later in
     usersState (fst done) = usersState st /\ snd done = error e) /\
  usersState (fst (settle (updateUser i patch st) (Fail e))) = usersState st /\
  snd (settle (updateUser i patch st) (Fail e)) = error e.
Proof.
  intros (k & u & Hk & Hu & _)%findIndex_found.
  rewrite (updateUser_found _ _ _ _ _ Hk Hu). simpl. auto.
Qed.

Lemma update_failure_restores_snapshot_witness :
  usersState
    (fst (settle (updateUser 2 Sample.rename Sample.three)
            (Fail Sample.unavailable))) = usersState Sample.three.
Proof.
  apply (update_failure_restores_snapshot Sample.three 2 Sample.rename
           Sample.unavailable).
  vm_compute. apply list_elem_of_In. simpl. auto.
Defined.

(** ** Rollback of a failed delete *)

(** C2. When the record is present and the backend fails the delete, the
    cache is the list from before the delete, so the record sits again at
    the index it was found at; the pending-deletion slot is empty; and the
    subscriber receives the backend's failure. *)
Theorem delete_failure_restores_record (st : State) (i : Z) (e : Err) :
  i ∈ ids st ->
  let done := settle (deleteUser i st) (Fail e) in
  usersState (fst done) = usersState st /\
  (exists k u, findIndex (has_id i) (usersState st) = Some k /\
     usersState st !! k = Some u /\ id u = i /\
     usersState (fst (deleteUser i st)) =
       List.filter (fun v => negb (has_id i v)) (usersState st) /\
     usersState (fst done) !! k = Some u) /\
  lastDeletedUser (fst done) = None /\
  snd done = error e.
Proof.
  intros (k & u & Hk & Hu & Hid)%findIndex_found.
  rewrite (deleteUser_found _ _ _ _ Hk Hu). simpl.
  repeat split; trivial. exists k, u. auto.
Qed.

Lemma delete_failure_restores_record_witness :
  usersState
    (fst (settle (deleteUser 2 Sample.three) (Fail Sample.unavailable))) =
  usersState Sample.three.
Proof.
  apply (delete_failure_restores_record Sample.three 2 Sample.unavailable).
  vm_compute. apply list_elem_of_In. simpl. auto.
Defined.

(** ** Unknown ids *)

(** C6. For an id that no record of the cache carries, [updateUser] and
    [deleteUser] answer with an observable that fails with the error
    "User not found"; neither the call nor a subscription sends a request,
    and the cached list and the pending-deletion slot are as before. *)
Theorem unknown_id_fails_locally (st : State) (i : Z) (patch : Partial.t)
    (ru : Reply User) (rd : Reply unit) :
  i ∉ ids st ->
  let unchanged (st' : State) :=
    usersState st' = usersState st /\
    lastDeletedUser st' = lastDeletedUser st /\
    requests st' = requests st in
  (snd (updateUser i patch st) = throwError (Error "User not found") /\
   unchanged (fst (updateUser i patch st)) /\
   unchanged (fst (settle (updateUser i patch st) ru)) /\
   snd (settle (updateUser i patch st) ru) = error (Error "User not found")) /\
  (snd (deleteUser i st) = throwError (Error "User not found") /\
   unchanged (fst (deleteUser i st)) /\
   unchanged (fst (settle (deleteUser i st) rd)) /\
   snd (settle (deleteUser i st) rd) = error (Error "User not found")).
Proof.
  intros Hk%findIndex_absent.
  rewrite (updateUser_missing _ _ _ Hk), (deleteUser_missing _ _ Hk).
  simpl. repeat split.
Qed.

Lemma unknown_id_fails_locally_witness :
  snd (settle (updateUser 9999 Sample.rename Sample.three)
         (Ack Sample.johndoe)) = error (Error "User not found") /\
  snd (settle (deleteUser 9999 Sample.three) (Ack tt)) =
    error (Error "User not found").
Proof.
  assert (9999 ∉ ids Sample.three) as H.
  { vm_compute. intros H%list_elem_of_In. simpl in H.
    repeat destruct H as [H|H]; try discriminate H; exact H. }
  pose proof (unknown_id_fails_locally Sample.three 9999 Sample.rename
                (Ack Sample.johndoe) (Ack tt) H) as [(_ & _ & _ & Hu) (_ & _ & _ & Hd)].
  split; assumption.
Defined.

(** ** An update acknowledged after its record has gone *)

(** C9. When the backend acknowledges an update of a record that was
    present at the call, but the list the cache holds when the reply arrives
    has no record with that id, the handler changes neither the list nor
    the pending-deletion slot: the record the server returned goes to the
    subscriber only. *)
Theorem update_ack_for_vanished_record_is_dropped (st later : State) (i : Z)
    (patch : Partial.t) (serverUser : User) :
  i ∈ ids st ->
  i ∉ ids later ->
  let done := deliver (snd (updateUser i patch st)) (Ack serverUser) later in
  usersState (fst done) = usersState later /\
  lastDeletedUser (fst done) = lastDeletedUser later /\
  requests (fst done) = requests later /\
  snd done = next serverUser.
Proof.
  intros (k & u & Hk & Hu & _)%findIndex_found Hgone%findIndex_absent.
  rewrite (updateUser_found _ _ _ _ _ Hk Hu). simpl.
  rewrite Hgone. simpl. auto.
Qed.

Lemma update_ack_for_vanished_record_is_dropped_witness :
  usersState
    (fst (deliver (snd (updateUser 2 Sample.rename Sample.three))
            (Ack Sample.janesmith) deleted_meanwhile)) =
  [Sample.johndoe; Sample.mikejohnson].
Proof.
  refine (proj1 (update_ack_for_vanished_record_is_dropped Sample.three
                   deleted_meanwhile 2 Sample.rename Sample.janesmith _ _)).
  - vm_compute. apply list_elem_of_In. simpl. auto.
  - vm_compute. intros H%list_elem_of_In. simpl in H.
    repeat destruct H as [H|H]; try discriminate H; exact H.
Defined.

(** ** Undo re-creates through the backend *)

(** C10. With a deletion pending, [undoDelete] empties the slot and answers
    with the create pipe for the captured record itself, id included: that
    record is the body of the POST request a subscription sends.  When the
    backend acknowledges, the record it returned, whatever it is, is
    appended to the list the cache then holds. *)
Theorem undo_posts_captured_record (st : State) (d : Deleted) :
  lastDeletedUser st = Some d ->
  exists st1 o,
    undoDelete st = (st1, Some o) /\
    o = post_pipe (with_id (user d)) /\
    body_id (with_id (user d)) = Some (id (user d)) /\
    usersState st1 = usersState st /\
    lastDeletedUser st1 = None /\
    requests (subscribe o st1) = requests st ++ [POST (with_id (user d))] /\
    forall (later : State) (newUser : User),
      usersState (fst (deliver o (Ack newUser) later)) =
        usersState later ++ [newUser] /\
      snd (deliver o (Ack newUser) later) = next newUser.
Proof.
  intros Hd. rewrite (undoDelete_pending _ _ Hd).
  eexists _, _. split; [reflexivity|]. simpl. repeat split.
Qed.

Lemma undo_posts_captured_record_witness :
  exists st1 o,
    undoDelete (fst (settle (deleteUser 2 Sample.three) (Ack tt))) =
      (st1, Some o) /\
    o = post_pipe (with_id Sample.janesmith).
Proof.
  destruct (undo_posts_captured_record
              (fst (settle (deleteUser 2 Sample.three) (Ack tt)))
              (mkDeleted Sample.janesmith 1) eq_refl)
    as (st1 & o & Hcall & Ho & _).
  exists st1, o. split; assumption.
Defined.

(** ** The single pending-deletion slot *)

(** After an acknowledged delete of another id, a present id is still found,
    and the record found is the same. *)
Lemma findIndex_after_delete (i j : Z) (l : list User) (k : nat) (u : User) :
  i <> j ->
  findIndex (has_id j) l = Some k ->
  l !! k = Some u ->
  exists k',
    findIndex (has_id j) (List.filter (fun v => negb (has_id i v)) l) = Some k' /\
    List.filter (fun v => negb (has_id i v)) l !! k' = Some u.
Proof.
  intros Hne Hk Hu. pose proof (findIndex_filter_other i j l Hne) as H.
  rewrite Hk in H. simpl in H. rewrite Hu in H.
  destruct (findIndex (has_id j) (List.filter _ l)) as [k'|]; simpl in H;
    [|discriminate].
  exists k'. split; congruence.
Qed.

(** C4. With records of two different ids in the cache, after the deletes
    of the first and then of the second are acknowledged the slot holds the
    record captured by the second delete.  An undo then sends one POST
    request, whose body is that record, and the cache gains only what the
    backend returns for it; the slot is empty afterwards, so a second undo
    answers [null] (nothing to undo) and leaves the state as it is. *)
Theorem undo_restores_only_last_delete (st : State) (iA iB : Z)
    (r r' : Reply User) :
  iA ∈ ids st -> iB ∈ ids st -> iA <> iB ->
  let st2 := run [Delete iA (Ack tt); Delete iB (Ack tt)] st in
  let st3 := step (UndoDelete r) st2 in
  let rest :=
    List.filter (fun v => negb (has_id iB v))
      (List.filter (fun v => negb (has_id iA v)) (usersState st)) in
  exists kB uB,
    findIndex (has_id iB) (usersState st) = Some kB /\
    usersState st !! kB = Some uB /\
    (exists k', lastDeletedUser st2 = Some (mkDeleted uB k')) /\
    usersState st2 = rest /\
    requests st3 =
      requests st ++ [DELETE iA; DELETE iB; POST (with_id uB)] /\
    usersState st3 =
      match r with
      | Ack newUser => rest ++ [newUser]
      | Fail _ => rest
      end /\
    lastDeletedUser st3 = None /\
    undoDelete st3 = (st3, None) /\
    step (UndoDelete r') st3 = st3.
Proof.
  intros (kA & uA & HkA & HuA & _)%findIndex_found
         (kB & uB & HkB & HuB & _)%findIndex_found Hne.
  destruct (findIndex_after_delete iA iB _ _ _ Hne HkB HuB) as (k' & Hk' & Hu').
  exists kB, uB. split; [exact HkB|]. split; [exact HuB|].
  assert (run [Delete iA (Ack tt); Delete iB (Ack tt)] st =
          mkState
            (List.filter (fun v => negb (has_id iB v))
               (List.filter (fun v => negb (has_id iA v)) (usersState st)))
            false (Some (mkDeleted uB k'))
            (requests st ++ [DELETE iA; DELETE iB])) as ->.
  { unfold run, step, settle. simpl foldl.
    rewrite (deleteUser_found _ _ _ _ HkA HuA). simpl.
    rewrite (deleteUser_found iB _ k' uB) by (simpl; assumption). simpl.
    unfold loadingState_next, issue. simpl. now rewrite <- app_assoc. }
  cbv zeta. split; [eauto|]. split; [reflexivity|].
  unfold step, settle.
  rewrite (undoDelete_pending _ (mkDeleted uB k')) by reflexivity.
  destruct r as [newUser|e]; simpl; rewrite <- !app_assoc; simpl;
    repeat split.
Qed.

Lemma undo_restores_only_last_delete_witness :
  let st3 :=
    step (UndoDelete (Ack (Sample.store (with_id Sample.janesmith))))
      (run [Delete 1 (Ack tt); Delete 2 (Ack tt)] Sample.three) in
  requests st3 = [DELETE 1; DELETE 2; POST (with_id Sample.janesmith)] /\
  undoDelete st3 = (st3, None).
Proof.
  assert (1 ∈ ids Sample.three /\ 2 ∈ ids Sample.three) as [H1 H2].
  { split; vm_compute; apply list_elem_of_In; simpl; auto. }
  destruct (undo_restores_only_last_delete Sample.three 1 2
              (Ack (Sample.store (with_id Sample.janesmith)))
              (Fail Sample.unavailable) H1 H2 ltac:(lia))
    as (kB & uB & HkB & HuB & _ & _ & Hreq & _ & _ & Hnone & _).
  vm_compute in HkB. injection HkB as <-.
  vm_compute in HuB. injection HuB as <-.
  split; [exact Hreq | exact Hnone].
Defined.

(** A second delete of the same id is not acknowledged: it never reaches
    the backend. *)
Lemma delete_twice_not_found (st : State) (i : Z) :
  snd (deleteUser i (fst (settle (deleteUser i st) (Ack tt)))) =
    throwError (Error "User not found").
Proof.
  assert (forall l, findIndex (has_id i)
            (List.filter (fun v => negb (has_id i v)) l) = None) as Hgone.
  { intros l. apply findIndex_None. intros x Hx.
    apply list_elem_of_In, filter_In in Hx as [_ Hx].
    now apply negb_true_iff in Hx. }
  destruct (findIndex (has_id i) (usersState st)) as [k|] eqn:Hk.
  - destruct (findIndex_Some _ _ _ Hk) as (u & Hu & _).
    rewrite (deleteUser_found _ _ _ _ Hk Hu). simpl.
    rewrite deleteUser_missing; [reflexivity|apply Hgone].
  - rewrite (deleteUser_missing _ _ Hk). simpl.
    rewrite deleteUser_missing; [reflexivity|exact Hk].
Qed.

(** ** Delete, then undo *)

Section UndoRoundTrip.
(** The backend's part of the contract of [POST /users]: the record it
    acknowledges has the non-id properties of the body it was sent. *)
Variable store : Body -> User.
Hypothesis store_echoes : forall b, omit_id (store b) = body_fields b.

(** C5. After an acknowledged delete of a present record, [undoDelete]
    sends a POST request; when the backend, keeping the contract above,
    acknowledges it, the cache is the list without the deleted record
    followed by the record the backend returned, whose non-id properties
    are those of the deleted record (its id is the backend's choice), and
    the slot is empty.  When the backend fails the request the slot is
    empty as well and the cache stays without the record. *)
Theorem delete_then_undo_recreates (st : State) (i : Z) :
  i ∈ ids st ->
  let st1 := step (Delete i (Ack tt)) st in
  let rest := List.filter (fun v => negb (has_id i v)) (usersState st) in
  exists k d st2 o b,
    findIndex (has_id i) (usersState st) = Some k /\
    usersState st !! k = Some d /\
    undoDelete st1 = (st2, Some o) /\
    requests (subscribe o st2) = requests st1 ++ [POST b] /\
    (let st3 := fst (deliver o (Ack (store b)) (subscribe o st2)) in
     usersState st3 = rest ++ [store b] /\
     (exists u, u ∈ usersState st3 /\ omit_id u = omit_id d) /\
     lastDeletedUser st3 = None) /\
    (forall e,
       let failed := deliver o (Fail e) (subscribe o st2) in
       usersState (fst failed) = rest /\
       lastDeletedUser (fst failed) = None /\
       snd failed = error e).
Proof.
  intros (k & d & Hk & Hd & _)%findIndex_found.
  exists k, d. unfold step, settle.
  rewrite (deleteUser_found _ _ _ _ Hk Hd). simpl.
  rewrite (undoDelete_pending _ (mkDeleted d k)) by reflexivity.
  eexists _, _, (with_id d). split; [exact Hk|]. split; [exact Hd|].
  split; [reflexivity|]. simpl. split; [reflexivity|]. split.
  - split; [reflexivity|]. split; [|reflexivity].
    exists (store (with_id d)). split.
    + apply elem_of_app. right. apply list_elem_of_singleton. reflexivity.
    + apply store_echoes.
  - intros e. repeat split.
Qed.
End UndoRoundTrip.

Lemma sample_store_echoes (b : Body) :
  omit_id (Sample.store b) = body_fields b.
Proof. unfold Sample.store. now destruct (body_fields b). Qed.

Lemma delete_then_undo_recreates_witness :
  exists u,
    u ∈ usersState
          (step (UndoDelete (Ack (Sample.store (with_id Sample.janesmith))))
             (step (Delete 2 (Ack tt)) Sample.three)) /\
    omit_id u = omit_id Sample.janesmith.
Proof.
  assert (2 ∈ ids Sample.three) as H.
  { vm_compute. apply list_elem_of_In. simpl. auto. }
  destruct (delete_then_undo_recreates Sample.store sample_store_echoes
              Sample.three 2 H)
    as (k & d & st2 & o & b & Hk & Hd & Hundo & Hreq & (_ & Hin & _) & _).
  vm_compute in Hk. injection Hk as <-.
  vm_compute in Hd. injection Hd as <-.
  vm_compute in Hundo. injection Hundo as <- <-.
  vm_compute in Hreq. injection Hreq as <-.
  exact Hin.
Defined.

(** ** Uniqueness of ids *)

Lemma NoDup_ids_filter (f : User -> bool) (l : list User) :
  NoDup (id <$> l) -> NoDup (id <$> List.filter f l).
Proof.
  induction l as [|a l IH]; simpl; [trivial|].
  rewrite !NoDup_cons. intros [Ha Hl].
  destruct (f a); simpl; [rewrite NoDup_cons|]; auto.
  split; [|auto]. intros (u & Hu & Hin)%list_elem_of_fmap.
  apply Ha, list_elem_of_fmap. exists u. split; [exact Hu|].
  apply list_elem_of_In. apply list_elem_of_In, filter_In in Hin. tauto.
Qed.

Lemma ids_insert_same (l : list User) (k : nat) (u v : User) :
  l !! k = Some u -> id v = id u -> id <$> <[k := v]> l = id <$> l.
Proof.
  intros Hu Hid. rewrite list_fmap_insert. apply list_insert_id.
  rewrite list_lookup_fmap, Hu. simpl. congruence.
Qed.

(** Reconciling with a record of the requested id keeps the ids. *)
Lemma ids_reconcile (l : list User) (i : Z) (serverUser : User) :
  id serverUser = i ->
  id <$> match findIndex (has_id i) l with
         | Some idx => <[idx := serverUser]> l
         | None => l
         end = id <$> l.
Proof.
  intros Hs. destruct (findIndex (has_id i) l) as [idx|] eqn:Hk; [|reflexivity].
  destruct (findIndex_Some _ _ _ Hk) as (u & Hu & Hp%has_id_true & _).
  apply (ids_insert_same _ _ u); congruence.
Qed.

Lemma NoDup_ids_snoc (l : list User) (u : User) :
  NoDup (id <$> l) -> id u ∉ id <$> l -> NoDup (id <$> (l ++ [u])).
Proof.
  intros Hl Hu. rewrite fmap_app. apply NoDup_app. split; [exact Hl|].
  split; [|apply NoDup_singleton].
  intros x Hx [->|[]%elem_of_nil]%elem_of_cons. contradiction.
Qed.

Lemma step_keeps_ids_distinct (op : Op) (st : State) :
  NoDup (ids st) -> op_trusted op st -> NoDup (ids (step op st)).
Proof.
  unfold ids. intros Hnd Hop. destruct op as [body r|i patch r|i r|r]; simpl.
  - destruct r as [newUser|e]; simpl; [|exact Hnd].
    now apply NoDup_ids_snoc.
  - destruct (findIndex (has_id i) (usersState st)) as [k|] eqn:Hk.
    + destruct (findIndex_Some _ _ _ Hk) as (u & Hu & Hp%has_id_true & _).
      rewrite (updateUser_found _ _ _ _ _ Hk Hu).
      destruct r as [serverUser|e]; simpl; [|exact Hnd].
      destruct Hop as [Hs Hpatch].
      assert (id (spread u patch) = id u) as Hsame.
      { simpl. destruct Hpatch as [-> | ->]; simpl; congruence. }
      set (l' := <[k := spread u patch]> (usersState st)).
      assert (id <$> l' = id <$> usersState st) as Hl'
        by (apply (ids_insert_same _ _ u); assumption).
      pose proof (ids_reconcile l' i serverUser Hs) as Hrec.
      destruct (findIndex (has_id i) l') as [idx|]; simpl.
      * fold l'. rewrite Hrec, Hl'. exact Hnd.
      * fold l'. rewrite Hl'. exact Hnd.
    + rewrite (updateUser_missing _ _ _ Hk). simpl. exact Hnd.
  - destruct (findIndex (has_id i) (usersState st)) as [k|] eqn:Hk.
    + destruct (findIndex_Some _ _ _ Hk) as (u & Hu & _).
      rewrite (deleteUser_found _ _ _ _ Hk Hu).
      destruct r as [[]|e]; simpl; [|exact Hnd].
      now apply NoDup_ids_filter.
    + rewrite (deleteUser_missing _ _ Hk). simpl. exact Hnd.
  - destruct (lastDeletedUser st) as [d|] eqn:Hd.
    + rewrite (undoDelete_pending _ _ Hd).
      destruct r as [newUser|e]; simpl; [|exact Hnd].
      destruct Hop as [Hnone|Hfresh]; [congruence|].
      now apply NoDup_ids_snoc.
    + rewrite (undoDelete_nothing _ Hd). exact Hnd.
Qed.

(** C3, as the code has it.  From a cache with pairwise distinct ids, every
    sequence of create, update, delete and undo operations run one after
    the other leaves a cache with pairwise distinct ids, provided the
    backend's acknowledged creates (those of an undo included) return ids
    the cache does not hold, and its acknowledged updates return the record
    under the requested id for a patch that leaves the id alone. *)
Theorem ids_stay_distinct (ops : list Op) (st : State) :
  NoDup (ids st) -> trusted ops st -> NoDup (ids (run ops st)).
Proof.
  revert st. induction ops as [|op ops IH]; intros st Hnd Hok; [exact Hnd|].
  destruct Hok as [Hop Hok]. unfold run. simpl. apply IH; [|exact Hok].
  now apply step_keeps_ids_distinct.
Qed.

(** C3, as stated, fails: the service appends whatever record the backend
    acknowledges, so an id that the cache already holds appears twice. *)
Lemma ids_collide_on_reused_id :
  NoDup (ids with_guest) /\ ~ NoDup (ids (run colliding_create with_guest)).
Proof.
  split.
  - vm_compute. repeat constructor; intros H%list_elem_of_In; simpl in H;
      intuition discriminate.
  - vm_compute. intros H. apply NoDup_cons in H as [_ H].
    apply NoDup_cons in H as [H _]. apply H. now left.
Qed.

Lemma ids_stay_distinct_witness :
  NoDup (ids (run well_behaved_run Sample.three)).
Proof.
  apply ids_stay_distinct.
  - vm_compute. repeat constructor; intros H%list_elem_of_In; simpl in H;
      intuition discriminate.
  - vm_compute. repeat split; auto.
    + intros H%list_elem_of_In; simpl in H; intuition discriminate.
    + right. intros H%list_elem_of_In; simpl in H; intuition discriminate.
Defined.

(** The other two provisos are needed as well.  A patch that carries another
    record's id duplicates that id at once, and the acknowledgement, which
    looks for the requested id, no longer finds the record. *)
Example ids_collide_on_patched_id :
  ids (run [Update 1 Sample.renumber
              (Ack (spread Sample.johndoe Sample.renumber))] Sample.three) =
  [2; 2; 3].
Proof. reflexivity. Qed.

(** An acknowledgement that carries another record's id duplicates it. *)
Example ids_collide_on_foreign_ack :
  ids (run [Update 1 Sample.rename (Ack Sample.janesmith)] Sample.three) =
  [2; 2; 3].
Proof. reflexivity. Qed.

(** ** Pagination *)

Lemma Math_ceil_div_spec (a b : Z) :
  0 < b -> (Math_ceil_div a b - 1) * b < a <= Math_ceil_div a b * b.
Proof.
  intros Hb. unfold Math_ceil_div.
  pose proof (Z.mul_div_le (- a) b Hb).
  pose proof (Z.mul_succ_div_gt (- a) b Hb). nia.
Qed.

(** With a start that is not negative and an end not before it, [slice]
    drops [start] elements and takes the next [end_ - start]. *)
Lemma slice_window {A : Type} (start end_ : Z) (l : list A) :
  0 <= start <= end_ ->
  slice start end_ l = take (Z.to_nat (end_ - start)) (drop (Z.to_nat start) l).
Proof.
  intros [H0 Hle]. unfold slice.
  replace (start <? 0) with false by (symmetry; apply Z.ltb_ge; lia).
  replace (end_ <? 0) with false by (symmetry; apply Z.ltb_ge; lia).
  set (len := Z.of_nat (List.length l)).
  assert (List.length (drop (Z.to_nat start) l) =
          (List.length l - Z.to_nat start)%nat) as Hdrop by apply length_drop.
  destruct (Z.le_gt_cases len start) as [Hout|Hin].
  - rewrite !Z.min_r by lia.
    rewrite (drop_ge l (Z.to_nat start)) by (unfold len in Hout; lia).
    rewrite (drop_ge l (Z.to_nat len)) by (unfold len; lia).
    now rewrite !take_nil.
  - rewrite (Z.min_l start) by lia.
    destruct (Z.le_gt_cases end_ len) as [Hfit|Hover].
    + now rewrite Z.min_l by lia.
    + rewrite Z.min_r by lia.
      rewrite !take_ge; [reflexivity| |]; rewrite Hdrop; unfold len in *; lia.
Qed.

(** C8. For a page number and a page size of at least one, the answer of
    [getPaginatedUsers] is computed from the filtered list (the filter's
    result when criteria are given, the cached list otherwise): [total] is
    its length, [totalPages] is the least number of pages of that size that
    hold [total] records, and [data] is the stretch of the filtered list
    from index [(page-1)*pageSize] up to, not including, [page*pageSize],
    which is empty when the page starts at or after the end.  For 25
    filtered records, page size 10 and page 3 it has 5 records and
    [totalPages] is 3. *)
Theorem paginate_is_slice_of_filtered (toLowerCase : string -> string)
    (st : State) (pg sz : Z) (criteria : option UserFilter.t) :
  1 <= pg -> 1 <= sz ->
  let filtered :=
    match criteria with
    | Some c => filterUsers toLowerCase c st
    | None => usersState st
    end in
  let res := getPaginatedUsers toLowerCase pg sz criteria st in
  total res = Z.of_nat (List.length filtered) /\
  (totalPages res - 1) * sz < total res <= totalPages res * sz /\
  data res = take (Z.to_nat sz) (drop (Z.to_nat ((pg - 1) * sz)) filtered) /\
  (forall j : nat,
     data res !! j =
       if decide (Z.of_nat j < sz)
       then filtered !! (Z.to_nat ((pg - 1) * sz) + j)%nat
       else None) /\
  (total res <= (pg - 1) * sz -> data res = []) /\
  page res = pg /\ pageSize res = sz /\
  (List.length filtered = 25%nat -> sz = 10 -> pg = 3 ->
   List.length (data res) = 5%nat /\ totalPages res = 3).
Proof.
  intros Hpg Hsz filtered res.
  assert (data res =
          take (Z.to_nat sz) (drop (Z.to_nat ((pg - 1) * sz)) filtered)) as Hdata.
  { unfold res, getPaginatedUsers. simpl. fold filtered.
    rewrite slice_window by nia. f_equal. lia. }
  split; [reflexivity|]. split; [apply Math_ceil_div_spec; lia|].
  split; [exact Hdata|]. split; [|split; [|split; [reflexivity|split; [reflexivity|]]]].
  - intros j. rewrite Hdata. destruct (decide (Z.of_nat j < sz)) as [Hj|Hj].
    + rewrite lookup_take_lt by lia. apply lookup_drop.
    + apply lookup_take_ge. lia.
  - intros Hout. rewrite Hdata. rewrite drop_ge; [apply take_nil|].
    change (total res) with (Z.of_nat (List.length filtered)) in Hout. lia.
  - intros Hlen -> ->. split.
    + rewrite Hdata, length_take, length_drop, Hlen. reflexivity.
    + unfold res, getPaginatedUsers. simpl. fold filtered. now rewrite Hlen.
Qed.

Lemma paginate_is_slice_of_filtered_witness :
  List.length (data (getPaginatedUsers ascii_lower 3 10 None
                       Sample.twentyfive)) = 5%nat /\
  totalPages (getPaginatedUsers ascii_lower 3 10 None Sample.twentyfive) = 3.
Proof.
  refine ((fun H => proj2 (proj2 (proj2 (proj2 (proj2 (proj2 (proj2 H)))))) eq_refl eq_refl eq_refl)
           (paginate_is_slice_of_filtered ascii_lower Sample.twentyfive 3 10 None
              _ _)); lia.
Defined.

(** ** Filtering *)

Section Strings.
Local Open Scope string_scope.

Lemma prefix_spec (n h : string) :
  String.prefix n h = true <-> exists post, h = n ++ post.
Proof.
  revert h. induction n as [|a n IH]; intros h.
  - split; [intros _; now exists h | intros _; now destruct h].
  - destruct h as [|b h]; simpl.
    + split; [discriminate | intros [post [=]]].
    + destruct (ascii_dec a b) as [->|Hab].
      * rewrite IH. split; intros [post H]; exists post.
        -- simpl. now rewrite H.
        -- simpl in H. now injection H.
      * split; [discriminate|]. intros [post H]. simpl in H.
        injection H as Hab' _. congruence.
Qed.

Lemma includes_unfold (h n : string) :
  includes h n =
    if String.prefix n h then true
    else match h with
         | EmptyString => false
         | String _ h' => includes h' n
         end.
Proof. destruct h; reflexivity. Qed.

Lemma includes_empty (h : string) : includes h "" = true.
Proof. rewrite includes_unfold. now destruct h. Qed.

(** [includes] finds exactly the contiguous occurrences. *)
Lemma includes_spec (h n : string) :
  includes h n = true <-> exists pre post, h = pre ++ n ++ post.
Proof.
  induction h as [|c h IH]; rewrite includes_unfold.
  - destruct (String.prefix n "") eqn:Hp.
    + apply prefix_spec in Hp as [post Hp]. split; [|reflexivity].
      intros _. now exists "", post.
    + split; [discriminate|]. intros ([|? pre] & post & H); [|discriminate].
      assert (String.prefix n "" = true) as Hp'
        by (apply prefix_spec; now exists post).
      congruence.
  - destruct (String.prefix n (String c h)) eqn:Hp.
    + apply prefix_spec in Hp as [post Hp]. split; [|reflexivity].
      intros _. now exists "", post.
    + rewrite IH. split.
      * intros (pre & post & ->). now exists (String c pre), post.
      * intros ([|c' pre] & post & H).
        -- assert (String.prefix n (String c h) = true) as Hp'
             by (apply prefix_spec; now exists post).
           congruence.
        -- injection H as -> ->. now exists pre, post.
Qed.

Lemma ascii_lower_app (a b : string) :
  ascii_lower (a ++ b) = ascii_lower a ++ ascii_lower b.
Proof. induction a as [|c a IH]; simpl; [reflexivity | now rewrite IH]. Qed.

Lemma ascii_lower_split (s a b : string) :
  ascii_lower s = a ++ b ->
  exists s1 s2, s = s1 ++ s2 /\ ascii_lower s1 = a /\ ascii_lower s2 = b.
Proof.
  revert s. induction a as [|c a IH]; intros s H.
  - now exists "", s.
  - destruct s as [|d s]; [discriminate|]. simpl in H. injection H as Hc H.
    destruct (IH s H) as (s1 & s2 & -> & <- & <-).
    exists (String d s1), s2. simpl. now rewrite Hc.
Qed.

Lemma N_of_lower_char (c : ascii) :
  N_of_ascii (lower_char c) =
    let n := N_of_ascii c in
    if ((65 <=? n) && (n <=? 90))%N then (n + 32)%N else n.
Proof.
  unfold lower_char. cbv zeta.
  destruct ((65 <=? N_of_ascii c) && (N_of_ascii c <=? 90))%N eqn:E;
    [|reflexivity].
  apply andb_true_iff in E as [_ E%N.leb_le].
  apply N_ascii_embedding. lia.
Qed.

(** The fold identifies two characters exactly when they differ at most in
    case. *)
Lemma lower_char_same_letter (c d : ascii) :
  lower_char c = lower_char d <-> same_letter c d.
Proof.
  assert (lower_char c = lower_char d <->
          N_of_ascii (lower_char c) = N_of_ascii (lower_char d)) as ->.
  { split; [now intros ->|]. intros H.
    rewrite <- (ascii_N_embedding (lower_char c)),
            <- (ascii_N_embedding (lower_char d)).
    now rewrite H. }
  rewrite !N_of_lower_char. unfold same_letter. cbv zeta.
  destruct (N.leb_spec 65 (N_of_ascii c)), (N.leb_spec (N_of_ascii c) 90),
           (N.leb_spec 65 (N_of_ascii d)), (N.leb_spec (N_of_ascii d) 90);
    simpl; lia.
Qed.

Lemma ascii_lower_equal_ignoring_case (s t : string) :
  ascii_lower s = ascii_lower t <-> equal_ignoring_case s t.
Proof.
  revert t. induction s as [|c s IH]; intros [|d t]; simpl;
    try (split; [discriminate|contradiction]); [tauto|].
  rewrite <- IH, <- lower_char_same_letter. split.
  - intros [= H1 H2]. auto.
  - intros [-> ->]. reflexivity.
Qed.

(** The search of the lowered needle in the lowered text is the search
    that ignores case. *)
Lemma includes_lowered (hay needle : string) :
  includes (ascii_lower hay) (ascii_lower needle) = true <->
  ci_substring needle hay.
Proof.
  rewrite includes_spec. unfold ci_substring. split.
  - intros (pre' & post' & H).
    apply ascii_lower_split in H as (pre & rest & -> & _ & H).
    apply ascii_lower_split in H as (mid & post & -> & H & _).
    exists pre, mid, post. split; [reflexivity|].
    now apply ascii_lower_equal_ignoring_case.
  - intros (pre & mid & post & -> & H).
    apply ascii_lower_equal_ignoring_case in H.
    exists (ascii_lower pre), (ascii_lower post).
    now rewrite !ascii_lower_app, H.
Qed.
End Strings.

Lemma truthy_false (s : string) : truthy s = false <-> s = "".
Proof.
  unfold truthy. rewrite negb_false_iff. apply String.eqb_eq.
Qed.

Lemma ascii_lower_folds_ascii : folds_ascii ascii_lower.
Proof. intros s _. reflexivity. Qed.

Lemma ci_substring_empty (hay : string) : ci_substring "" hay.
Proof. exists "", "", hay. now split. Qed.

(** On ASCII text the test decides the conjunction of the provided
    criteria, an empty department counting as omitted. *)
Lemma satisfiesb_spec (toLowerCase : string -> string) (c : UserFilter.t)
    (u : User) :
  folds_ascii toLowerCase -> ascii_term c = true -> ascii_names u = true ->
  satisfiesb toLowerCase c u = true <->
  satisfies (without_empty_department c) u.
Proof.
  intros Hfold Hterm Hnames. destruct c as [t r s d].
  unfold ascii_term in Hterm. simpl in Hterm.
  apply andb_true_iff in Hnames as [Hnames H4].
  apply andb_true_iff in Hnames as [Hnames H3].
  apply andb_true_iff in Hnames as [H1 H2].
  unfold satisfiesb, satisfies, without_empty_department. simpl.
  rewrite !andb_true_iff.
  assert (forall (A : Type) (o : option A) (b : A -> bool) (P : A -> Prop),
            (forall x, o = Some x -> (b x = true <-> P x)) ->
            (match o with Some x => b x | None => true end = true <->
             forall x, o = Some x -> P x)) as Hopt.
  { intros A [x|] b P Hb.
    - rewrite (Hb x eq_refl). split; [now intros H ? [= <-] | auto].
    - split; [discriminate | reflexivity]. }
  rewrite (Hopt _ t _
             (fun term => ci_substring term (firstName u) \/
                          ci_substring term (lastName u) \/
                          ci_substring term (email u) \/
                          ci_substring term (username u))).
  2:{ intros term ->. destruct (truthy term) eqn:Ht.
      - rewrite (Hfold _ Hterm), (Hfold _ H1), (Hfold _ H2), (Hfold _ H3),
          (Hfold _ H4).
        rewrite !orb_true_iff, !includes_lowered. tauto.
      - apply truthy_false in Ht as ->. split; [|reflexivity].
        intros _. left. apply ci_substring_empty. }
  rewrite (Hopt _ r _ (fun r => role u = r))
    by (intros; apply bool_decide_eq_true).
  rewrite (Hopt _ s _ (fun s => status u = s))
    by (intros; apply bool_decide_eq_true).
  assert (match d with
          | Some d => if truthy d then bool_decide (department u = Some d)
                      else true
          | None => true
          end = true <->
          forall d', match d with
                     | Some d => if truthy d then Some d else None
                     | None => None
                     end = Some d' -> department u = Some d') as ->.
  { destruct d as [d|]; [|split; [discriminate|reflexivity]].
    destruct (truthy d); [|split; [discriminate|reflexivity]].
    rewrite bool_decide_eq_true. split; [now intros H ? [= <-] | auto]. }
  tauto.
Qed.

Lemma filter_all {A : Type} (l : list A) : List.filter (fun _ => true) l = l.
Proof. induction l as [|a l IH]; simpl; congruence. Qed.

Lemma filter_and {A : Type} (f g : A -> bool) (l : list A) :
  List.filter g (List.filter f l) = List.filter (fun x => f x && g x) l.
Proof.
  induction l as [|a l IH]; simpl; [reflexivity|].
  destruct (f a); simpl; [destruct (g a)|]; congruence.
Qed.

(** [filterUsers] is one pass with the test. *)
Lemma filterUsers_one_pass (toLowerCase : string -> string)
    (c : UserFilter.t) (st : State) :
  filterUsers toLowerCase c st =
    List.filter (satisfiesb toLowerCase c) (usersState st).
Proof.
  destruct c as [t r s d]. unfold filterUsers, satisfiesb. simpl.
  set (l := usersState st).
  destruct t as [term|]; [destruct (truthy term)|];
    destruct r as [r|], s as [s|], d as [d|]; try destruct (truthy d);
    rewrite ?filter_and; simpl;
    try (symmetry; apply filter_all);
    apply List.filter_ext; intros u;
    rewrite ?andb_true_r, ?andb_assoc; reflexivity.
Qed.

Lemma forallb_elem {A : Type} (f : A -> bool) (l : list A) (x : A) :
  forallb f l = true -> x ∈ l -> f x = true.
Proof.
  rewrite forallb_forall. intros H Hx. now apply H, list_elem_of_In.
Qed.

(** On ASCII text, what [filterUsers] returns is what satisfies the
    criteria. *)
Lemma filterUsers_elem (toLowerCase : string -> string) (c : UserFilter.t)
    (st : State) :
  folds_ascii toLowerCase ->
  ascii_term c = true ->
  forallb ascii_names (usersState st) = true ->
  forall u, u ∈ filterUsers toLowerCase c st <->
    u ∈ usersState st /\ satisfies (without_empty_department c) u.
Proof.
  intros Hfold Hterm Hcache u.
  rewrite filterUsers_one_pass, !list_elem_of_In, filter_In.
  rewrite <- !list_elem_of_In.
  split; intros [Hu H]; (split; [exact Hu|]);
    apply (satisfiesb_spec toLowerCase c u); trivial;
    now apply (forallb_elem _ (usersState st)).
Qed.



(** The search does fold case: the term [JO] selects the record of John
    Doe and not that of Jane Smith. *)
Example filter_search_is_case_blind :
  satisfies Sample.search_JO Sample.johndoe /\
  ~ satisfies Sample.search_JO Sample.janesmith.
Proof.
  change Sample.search_JO
    with (without_empty_department Sample.search_JO).
  rewrite <- !(satisfiesb_spec ascii_lower)
    by (reflexivity || apply ascii_lower_folds_ascii).
  split; [reflexivity|]. vm_compute. discriminate.
Qed.

(** When the department is omitted or not empty, the criteria are taken as
    they are given. *)
Lemma filter_matches_given_criteria (toLowerCase : string -> string)
    (c : UserFilter.t) (st : State) :
  folds_ascii toLowerCase ->
  ascii_term c = true ->
  forallb ascii_names (usersState st) = true ->
  UserFilter.department c <> Some "" ->
  forall u, u ∈ filterUsers toLowerCase c st <->
    u ∈ usersState st /\ satisfies c u.
Proof.
  intros Hfold Hterm Hcache Hd.
  assert (without_empty_department c = c) as Hsame.
  { destruct c as [t r s [d|]]; unfold without_empty_department; simpl in *;
      [|reflexivity].
    destruct (truthy d) eqn:Ht; [reflexivity|].
    apply truthy_false in Ht as ->. contradiction. }
  intros u. rewrite (filterUsers_elem toLowerCase c st Hfold Hterm Hcache u).
  now rewrite Hsame.
Qed.


(** ** Loading and looking up *)

(** [Array.prototype.find] answers with the record at the index that
    [findIndex] answers with. *)
Lemma find_findIndex {A : Type} (p : A -> bool) (l : list A) :
  List.find p l = findIndex p l ≫= (fun k => l !! k).
Proof.
  induction l as [|a l IH]; simpl; [reflexivity|].
  destruct (p a); [reflexivity|]. rewrite IH.
  now destruct (findIndex p l).
Qed.

Lemma find_filter_other (i j : Z) (l : list User) :
  i <> j ->
  List.find (has_id j) (List.filter (fun v => negb (has_id i v)) l) =
  List.find (has_id j) l.
Proof.
  intros Hne. induction l as [|a l IH]; simpl; [reflexivity|].
  destruct (has_id i a) eqn:Hi; simpl.
  - apply has_id_true in Hi.
    assert (has_id j a = false) as -> by (apply has_id_false; congruence).
    exact IH.
  - now rewrite IH.
Qed.

(** X1.  A lookup by id is answered from the cache exactly when a record with
    the id is cached, and then with the first such record: the one at the
    index [updateUser] and [deleteUser] work on.  Otherwise the record is
    asked of the backend under the same id. *)
Theorem getUserById_cache_or_backend (i : Z) (st : State) :
  (i ∈ ids st ->
   exists k u, findIndex (has_id i) (usersState st) = Some k /\
     usersState st !! k = Some u /\ id u = i /\
     getUserById i st = of_cached u) /\
  (i ∉ ids st -> getUserById i st = http_get i) /\
  (forall u, getUserById i st = of_cached u -> id u = i /\ u ∈ usersState st).
Proof.
  unfold getUserById. rewrite find_findIndex. split; [|split].
  - intros (k & u & Hk & Hu & Hid)%findIndex_found. exists k, u.
    rewrite Hk. simpl. rewrite Hu. auto.
  - intros Hk%findIndex_absent. now rewrite Hk.
  - intros u H.
    destruct (findIndex (has_id i) (usersState st)) as [k|] eqn:Hk;
      simpl in H; [|discriminate].
    destruct (findIndex_Some _ _ _ Hk) as (v & Hv & Hp%has_id_true & _).
    rewrite Hv in H. injection H as <-. split; [exact Hp|].
    eapply list_elem_of_lookup_2, Hv.
Qed.

(** X2.  A reload replaces the cache wholesale.  An acknowledged load leaves
    exactly the list the backend sent; a failed load leaves the empty list,
    so every lookup by id then goes to the backend.  Either way the loading
    flag is down and a pending deletion stays pending. *)
Theorem loadUsers_replaces_cache (r : Reply (list User)) (st : State) :
  let st' := loadUsers r st in
  usersState st' =
    match r with
    | Ack users => users
    | Fail _ => []
    end /\
  loadingState st' = false /\
  lastDeletedUser st' = lastDeletedUser st /\
  requests st' = requests st /\
  (forall e i, r = Fail e -> getUserById i st' = http_get i) /\
  undoDelete st' =
    match lastDeletedUser st with
    | Some d =>
        (loadingState_next true (set_lastDeletedUser None st'),
         Some (post_pipe (with_id (user d))))
    | None => (st', None)
    end.
Proof.
  intros st'. split; [now destruct r|]. split; [now destruct r|].
  split; [now destruct r|]. split; [now destruct r|]. split.
  - intros e i ->. reflexivity.
  - unfold undoDelete.
    assert (lastDeletedUser st' = lastDeletedUser st) as -> by now destruct r.
    now destruct (lastDeletedUser st).
Qed.

(** X3.  After an acknowledged delete the cache no longer answers for the
    deleted id, and answers for every other id as before. *)
Theorem lookup_after_delete (i j : Z) (st : State) :
  i ∈ ids st ->
  let st' := step (Delete i (Ack tt)) st in
  getUserById i st' = http_get i /\
  (j <> i -> getUserById j st' = getUserById j st).
Proof.
  intros (k & u & Hk & Hu & _)%findIndex_found. unfold step, settle.
  rewrite (deleteUser_found _ _ _ _ Hk Hu). simpl. unfold getUserById. simpl.
  split.
  - assert (List.find (has_id i)
              (List.filter (fun v => negb (has_id i v)) (usersState st)) = None)
      as ->; [|reflexivity].
    rewrite find_findIndex.
    assert (findIndex (has_id i)
              (List.filter (fun v => negb (has_id i v)) (usersState st)) = None)
      as ->; [|reflexivity].
    apply findIndex_None. intros x Hx.
    apply list_elem_of_In, filter_In in Hx as [_ Hx].
    now apply negb_true_iff in Hx.
  - intros Hne. rewrite find_filter_other by congruence. reflexivity.
Qed.

Lemma lookup_after_delete_witness :
  getUserById 2 (step (Delete 2 (Ack tt)) Sample.three) = http_get 2 /\
  getUserById 3 (step (Delete 2 (Ack tt)) Sample.three) =
    of_cached Sample.mikejohnson.
Proof.
  assert (2 ∈ ids Sample.three) as H.
  { vm_compute. apply list_elem_of_In. simpl. auto. }
  destruct (lookup_after_delete 2 3 Sample.three H) as [H2 H3].
  split; [exact H2|]. rewrite H3 by lia. reflexivity.
Defined.

(** ** The mutations on their successful and failing paths *)

(** One create, settled: one POST with the body it was given; the record
    appended when acknowledged, nothing changed when failed. *)
Lemma create_settles (body : Body) (r : Reply User) (st : State) :
  let done := settle (createUser body st) r in
  requests (fst done) = requests st ++ [POST body] /\
  loadingState (fst done) = false /\
  lastDeletedUser (fst done) = lastDeletedUser st /\
  usersState (fst done) =
    usersState st ++ match r with
                     | Ack newUser => [newUser]
                     | Fail _ => []
                     end.
Proof. destruct r; simpl; rewrite ?app_nil_r; repeat split. Qed.

(** X4.  Creates only ever add at the end.  After any series of creates,
    each acknowledged or failed by the backend, the cache is the list it
    was followed by the records of the acknowledged ones in the order of
    the calls; a failed create leaves no trace in it.  One POST went out
    for each create, with its body, and a pending deletion is still
    pending. *)
Theorem creates_append_in_order (creates : list (Body * Reply User))
    (st : State) :
  let st' := run ((fun c => Create (fst c) (snd c)) <$> creates) st in
  usersState st' =
    usersState st ++
    omap (fun c => match snd c with
                   | Ack newUser => Some newUser
                   | Fail _ => None
                   end) creates /\
  requests st' = requests st ++ ((fun c => POST (fst c)) <$> creates) /\
  lastDeletedUser st' = lastDeletedUser st /\
  (creates <> [] -> loadingState st' = false).
Proof.
  revert st. induction creates as [|[body r] creates IH]; intros st.
  - simpl. rewrite !app_nil_r. repeat split. congruence.
  - cbv zeta. rewrite fmap_cons.
    change (run (Create (fst (body, r)) (snd (body, r)) :: ?ops) st)
      with (run ops (fst (settle (createUser body st) r))).
    destruct (create_settles body r st) as (Hr' & Hl' & Hd' & Hu').
    cbv zeta in Hr', Hl', Hd', Hu'.
    destruct (IH (fst (settle (createUser body st) r))) as (Hu & Hr & Hd & Hl).
    rewrite Hu, Hr, Hd, Hu', Hr', Hd'. rewrite <- !app_assoc.
    split; [now destruct r|]. split; [reflexivity|]. split; [reflexivity|].
    intros _. destruct creates as [|c creates]; [exact Hl'|].
    apply Hl. discriminate.
Qed.

(** X5.  An acknowledged update of a present record, with a patch that leaves
    the id alone: the request is a PUT for that id whose body is the cached
    record merged with the patch, and afterwards the record the server
    returned sits at the index of the old one, every other position and
    the length of the list being as before. *)
Theorem update_ack_reconciles (i : Z) (patch : Partial.t) (serverUser : User)
    (st : State) :
  i ∈ ids st ->
  Partial.id patch = None \/ Partial.id patch = Some i ->
  let done := settle (updateUser i patch st) (Ack serverUser) in
  exists k u,
    findIndex (has_id i) (usersState st) = Some k /\
    usersState st !! k = Some u /\
    usersState (fst (updateUser i patch st)) =
      <[k := spread u patch]> (usersState st) /\
    requests (fst done) = requests st ++ [PUT i (spread u patch)] /\
    usersState (fst done) = <[k := serverUser]> (usersState st) /\
    usersState (fst done) !! k = Some serverUser /\
    (forall j, j <> k -> usersState (fst done) !! j = usersState st !! j) /\
    List.length (usersState (fst done)) = List.length (usersState st) /\
    lastDeletedUser (fst done) = lastDeletedUser st /\
    loadingState (fst done) = false /\
    snd done = next serverUser.
Proof.
  intros (k & u & Hk & Hu & Hid)%findIndex_found Hpatch.
  exists k, u. rewrite (updateUser_found _ _ _ _ _ Hk Hu). simpl.
  assert (id (spread u patch) = i) as Hsame.
  { simpl. destruct Hpatch as [-> | ->]; simpl; congruence. }
  assert (findIndex (has_id i) (<[k := spread u patch]> (usersState st)) =
          Some k) as Hk'.
  { destruct (findIndex_Some _ _ _ Hk) as (_ & _ & _ & Hmin).
    assert (k < List.length (usersState st))%nat as Hlt
      by (eapply lookup_lt_Some, Hu).
    destruct (findIndex (has_id i) (<[k := spread u patch]> (usersState st)))
      as [k'|] eqn:E.
    - destruct (findIndex_Some _ _ _ E) as (v & Hv & Hp & Hmin').
      destruct (Nat.lt_trichotomy k' k) as [Hlt'|[->|Hgt]]; [|reflexivity|].
      + rewrite list_lookup_insert_ne in Hv by lia.
        rewrite (Hmin k' v Hlt' Hv) in Hp. discriminate.
      + assert (has_id i (spread u patch) = false) as Hf.
        { apply (Hmin' k _ Hgt). now apply list_lookup_insert_eq. }
        apply has_id_false in Hf. contradiction.
    - rewrite findIndex_None in E.
      assert (has_id i (spread u patch) = false) as Hf.
      { apply E. eapply list_elem_of_lookup_2.
        now apply list_lookup_insert_eq. }
      apply has_id_false in Hf. contradiction. }
  rewrite Hk'. simpl. rewrite list_insert_insert_eq.
  assert (k < List.length (usersState st))%nat as Hlt
    by (eapply lookup_lt_Some, Hu).
  repeat split; trivial.
  - now apply list_lookup_insert_eq.
  - intros j Hj. now apply list_lookup_insert_ne.
  - apply length_insert.
Qed.

Lemma update_ack_reconciles_witness :
  usersState
    (fst (settle (updateUser 2 Sample.rename Sample.three)
            (Ack (spread Sample.janesmith Sample.rename)))) =
  [Sample.johndoe; spread Sample.janesmith Sample.rename; Sample.mikejohnson].
Proof.
  assert (2 ∈ ids Sample.three) as H.
  { vm_compute. apply list_elem_of_In. simpl. auto. }
  destruct (update_ack_reconciles 2 Sample.rename
              (spread Sample.janesmith Sample.rename) Sample.three H
              (or_introl eq_refl))
    as (k & u & Hk & _ & _ & _ & Hres & _).
  vm_compute in Hk. injection Hk as <-. exact Hres.
Defined.

(** X6.  An acknowledged update whose patch gives the record another id is never
    reconciled: the handler looks for the id that was asked for, which no
    record carries any more, so the record the server returned is dropped
    and the optimistic record stays in the cache under the new id. *)
Theorem update_ack_lost_after_id_patch (i j : Z) (patch : Partial.t)
    (serverUser : User) (st : State) :
  NoDup (ids st) ->
  i ∈ ids st ->
  Partial.id patch = Some j ->
  j <> i ->
  let done := settle (updateUser i patch st) (Ack serverUser) in
  exists k u,
    findIndex (has_id i) (usersState st) = Some k /\
    usersState st !! k = Some u /\
    usersState (fst done) = <[k := spread u patch]> (usersState st) /\
    id (spread u patch) = j /\
    (i ∉ ids (fst done)) /\
    snd done = next serverUser.
Proof.
  intros Hnd (k & u & Hk & Hu & Hid)%findIndex_found Hpatch Hne.
  exists k, u. rewrite (updateUser_found _ _ _ _ _ Hk Hu). simpl.
  assert (id (spread u patch) = j) as Hj by (simpl; now rewrite Hpatch).
  assert (findIndex (has_id i) (<[k := spread u patch]> (usersState st)) =
          None) as Hgone.
  { apply findIndex_None. intros x (p & Hp)%list_elem_of_lookup_1.
    apply has_id_false. destruct (decide (p = k)) as [->|Hpk].
    - rewrite list_lookup_insert_eq in Hp by (eapply lookup_lt_Some, Hu).
      injection Hp as <-. congruence.
    - rewrite list_lookup_insert_ne in Hp by congruence. intros Hx.
      apply Hpk. apply (NoDup_lookup _ p k i Hnd); unfold ids;
        rewrite list_lookup_fmap; [rewrite Hp | rewrite Hu]; simpl; congruence. }
  rewrite Hgone. simpl. repeat split; trivial.
  unfold ids. simpl. now apply findIndex_absent.
Qed.

Lemma update_ack_lost_after_id_patch_witness :
  ids (fst (settle (updateUser 1 Sample.renumber Sample.three)
              (Ack Sample.johndoe))) = [2; 2; 3].
Proof.
  assert (NoDup (ids Sample.three)) as Hnd.
  { vm_compute. repeat constructor; intros H%list_elem_of_In; simpl in H;
      intuition discriminate. }
  assert (1 ∈ ids Sample.three) as Hin.
  { vm_compute. apply list_elem_of_In. simpl. auto. }
  destruct (update_ack_lost_after_id_patch 1 2 Sample.renumber Sample.johndoe
              Sample.three Hnd Hin eq_refl ltac:(lia))
    as (k & u & Hk & Hu & Hres & _).
  vm_compute in Hk. injection Hk as <-.
  vm_compute in Hu. injection Hu as <-.
  unfold ids. rewrite Hres. reflexivity.
Defined.

Lemma filter_keeps_all {A : Type} (f : A -> bool) (l : list A) :
  (forall x, x ∈ l -> f x = true) -> List.filter f l = l.
Proof.
  induction l as [|a l IH]; intros H; simpl; [reflexivity|].
  rewrite (H a) by left. f_equal. apply IH. intros x Hx. apply H. now right.
Qed.

(** With distinct ids, dropping the records of one id is removing one
    position. *)
Lemma filter_id_is_delete (i : Z) (l : list User) (k : nat) (u : User) :
  NoDup (id <$> l) -> l !! k = Some u -> id u = i ->
  List.filter (fun v => negb (has_id i v)) l = delete k l.
Proof.
  revert k. induction l as [|a l IH]; intros k Hnd Hu Hid; [discriminate|].
  simpl in Hnd. apply NoDup_cons in Hnd as [Ha Hnd]. destruct k as [|k]; simpl.
  - injection Hu as ->. rewrite (proj2 (has_id_true i u) Hid). simpl.
    apply filter_keeps_all. intros x Hx. apply negb_true_iff, has_id_false.
    intros Hx'. apply Ha, list_elem_of_fmap. exists x. split; congruence.
  - simpl in Hu.
    assert (has_id i a = false) as ->.
    { apply has_id_false. intros Ha'. apply Ha, list_elem_of_fmap.
      exists u. split; [congruence|]. eapply list_elem_of_lookup_2, Hu. }
    simpl. f_equal. now apply IH.
Qed.

(** X7.  An acknowledged delete of a present id sends one DELETE for it and
    leaves no record with that id in the cache, every other record staying
    in place and order; the slot holds the first record with the id and the
    index it was found at.  When the ids are distinct exactly that position
    is removed. *)
Theorem delete_ack_removes_record (i : Z) (st : State) :
  i ∈ ids st ->
  let st' := step (Delete i (Ack tt)) st in
  exists k u,
    findIndex (has_id i) (usersState st) = Some k /\
    usersState st !! k = Some u /\
    lastDeletedUser st' = Some (mkDeleted u k) /\
    requests st' = requests st ++ [DELETE i] /\
    (i ∉ ids st') /\
    (forall x, x ∈ usersState st' <-> x ∈ usersState st /\ id x <> i) /\
    usersState st' `sublist_of` usersState st /\
    (NoDup (ids st) ->
     usersState st' = delete k (usersState st) /\
     S (List.length (usersState st')) = List.length (usersState st)).
Proof.
  intros (k & u & Hk & Hu & Hid)%findIndex_found. exists k, u.
  unfold step, settle. rewrite (deleteUser_found _ _ _ _ Hk Hu). simpl.
  split; [exact Hk|]. split; [exact Hu|]. split; [reflexivity|].
  split; [reflexivity|]. split; [|split; [|split]].
  - unfold ids. simpl. apply findIndex_absent, findIndex_None. intros x Hx.
    apply list_elem_of_In, filter_In in Hx as [_ Hx].
    now apply negb_true_iff in Hx.
  - intros x. rewrite !list_elem_of_In, filter_In, negb_true_iff, has_id_false.
    reflexivity.
  - generalize (usersState st). intros l. induction l as [|a l IH]; simpl.
    + constructor.
    + destruct (negb (has_id i a)); [now constructor|now apply sublist_cons].
  - intros Hnd. rewrite (filter_id_is_delete i _ k u Hnd Hu Hid).
    split; [reflexivity|]. rewrite length_delete by eauto.
    apply lookup_lt_Some in Hu. lia.
Qed.

Lemma delete_ack_removes_record_witness :
  usersState (step (Delete 2 (Ack tt)) Sample.three) =
    [Sample.johndoe; Sample.mikejohnson].
Proof.
  assert (2 ∈ ids Sample.three) as Hin.
  { vm_compute. apply list_elem_of_In. simpl. auto. }
  destruct (delete_ack_removes_record 2 Sample.three Hin)
    as (k & u & Hk & _ & _ & _ & _ & _ & _ & Hdel).
  vm_compute in Hk. injection Hk as <-.
  apply Hdel. vm_compute.
  repeat constructor; intros H%list_elem_of_In; simpl in H;
    intuition discriminate.
Defined.

(** X8.  No operation leaves the loading flag up: once a create, an update or a
    delete has settled, whatever the reply and whether or not the id was
    found, the flag is down; so it is after an undo that had something to
    undo.  An undo with an empty slot changes nothing at all. *)
Theorem loading_flag_down_after_settle (op : Op) (st : State) :
  match op with
  | UndoDelete _ =>
      match lastDeletedUser st with
      | Some _ => loadingState (step op st) = false
      | None => step op st = st
      end
  | _ => loadingState (step op st) = false
  end.
Proof.
  destruct op as [body r|i patch r|i r|r]; simpl.
  - now destruct r.
  - unfold updateUser. simpl.
    destruct (findIndex (has_id i) (usersState st)) as [k|]; [|reflexivity].
    destruct (usersState st !! k); [|reflexivity].
    now destruct r.
  - unfold deleteUser. simpl.
    destruct (findIndex (has_id i) (usersState st)) as [k|]; [|reflexivity].
    destruct (usersState st !! k); [|reflexivity].
    now destruct r as [[]|].
  - unfold undoDelete. destruct (lastDeletedUser st); [|reflexivity].
    now destruct r.
Qed.

(** X9.  A delete that the backend fails clears the slot even when the slot held
    the record of an earlier, acknowledged delete: that earlier delete can
    no longer be undone, and its record is not in the cache. *)
Theorem failed_delete_forfeits_earlier_undo (iA iB : Z) (e : Err) (st : State) :
  iA ∈ ids st -> iB ∈ ids st -> iA <> iB ->
  let st1 := step (Delete iA (Ack tt)) st in
  let st2 := step (Delete iB (Fail e)) st1 in
  is_Some (lastDeletedUser st1) /\
  lastDeletedUser st2 = None /\
  undoDelete st2 = (st2, None) /\
  usersState st2 = usersState st1 /\
  iA ∉ ids st2.
Proof.
  intros (kA & uA & HkA & HuA & _)%findIndex_found
         (kB & uB & HkB & HuB & _)%findIndex_found Hne.
  destruct (findIndex_after_delete iA iB _ _ _ Hne HkB HuB) as (k' & Hk' & Hu').
  cbv zeta. unfold step, settle.
  rewrite (deleteUser_found _ _ _ _ HkA HuA). simpl.
  rewrite (deleteUser_found iB _ k' uB) by (simpl; assumption). simpl.
  split; [eauto|]. repeat split.
  unfold ids. simpl. apply findIndex_absent, findIndex_None. intros x Hx.
  apply list_elem_of_In, filter_In in Hx as [_ Hx].
  now apply negb_true_iff in Hx.
Qed.

Lemma failed_delete_forfeits_earlier_undo_witness :
  undoDelete
    (step (Delete 2 (Fail Sample.unavailable))
       (step (Delete 1 (Ack tt)) Sample.three)) =
  (step (Delete 2 (Fail Sample.unavailable))
     (step (Delete 1 (Ack tt)) Sample.three), None).
Proof.
  assert (1 ∈ ids Sample.three /\ 2 ∈ ids Sample.three) as [H1 H2].
  { split; vm_compute; apply list_elem_of_In; simpl; auto. }
  exact (proj1 (proj2 (proj2 (failed_delete_forfeits_earlier_undo 1 2
           Sample.unavailable Sample.three H1 H2 ltac:(lia))))).
Defined.

(** X10.  The record of requests only grows, and by at most one request for each
    operation run. *)
Theorem requests_grow_by_at_most_one (ops : list Op) (st : State) :
  exists sent,
    requests (run ops st) = requests st ++ sent /\
    (List.length sent <= List.length ops)%nat.
Proof.
  revert st. induction ops as [|op ops IH]; intros st.
  - exists []. simpl. now rewrite app_nil_r.
  - assert (exists one, requests (step op st) = requests st ++ one /\
                        (List.length one <= 1)%nat) as (one & Hone & Hlen).
    { assert (forall l : list HttpRequest, l = l ++ [] /\
                (List.length (@nil HttpRequest) <= 1)%nat) as Hnone
        by (intros l; rewrite app_nil_r; simpl; split; [reflexivity|lia]).
      destruct op as [body r|i patch r|i r|r]; simpl.
      - exists [POST body]. destruct r; simpl; split; (reflexivity || lia).
      - unfold updateUser. simpl.
        destruct (findIndex (has_id i) (usersState st)) as [k|];
          [|exists []; apply Hnone].
        destruct (usersState st !! k) as [u|]; [|exists []; apply Hnone].
        exists [PUT i (spread u patch)].
        destruct r; simpl; [|split; (reflexivity || lia)].
        match goal with
        | |- context [findIndex ?p ?l] => destruct (findIndex p l)
        end; simpl; split; (reflexivity || lia).
      - unfold deleteUser. simpl.
        destruct (findIndex (has_id i) (usersState st)) as [k|];
          [|exists []; apply Hnone].
        destruct (usersState st !! k) as [u|]; [|exists []; apply Hnone].
        exists [DELETE i].
        destruct r as [[]|]; simpl; split; (reflexivity || lia).
      - unfold undoDelete. destruct (lastDeletedUser st) as [d|];
          [|exists []; apply Hnone].
        exists [POST (with_id (user d))].
        destruct r; simpl; split; (reflexivity || lia). }
    destruct (IH (step op st)) as (sent & Hsent & Hlen').
    exists (one ++ sent). unfold run in *. simpl. rewrite Hsent, Hone.
    rewrite <- app_assoc. split; [reflexivity|].
    rewrite length_app. simpl. lia.
Qed.

(** ** Statistics *)

(** X11.  Every cached record is counted once: as active or as inactive. *)
Theorem active_and_inactive_make_total (st : State) :
  activeUsers st + inactiveUsers st = totalUsers st.
Proof.
  unfold activeUsers, inactiveUsers, totalUsers.
  induction (usersState st) as [|u l IH]; simpl; [reflexivity|].
  destruct (status u); simpl; lia.
Qed.

Lemma tally_fold (l : list User) (o : gmap string Z) (key : string) :
  foldl (fun o u => tally (role_name (role u)) o) o l !! key =
    let n := Z.of_nat (List.length
               (List.filter (fun u => String.eqb (role_name (role u)) key) l)) in
    if n =? 0 then o !! key else Some (default 0 (o !! key) + n).
Proof.
  revert o. induction l as [|a l IH]; intros o; [reflexivity|].
  simpl foldl. rewrite IH. cbv zeta. simpl List.filter.
  set (n' := Z.of_nat (List.length (List.filter _ l))).
  assert (0 <= n') as Hn' by (unfold n'; lia).
  destruct (String.eqb (role_name (role a)) key) eqn:Hkey.
  - apply String.eqb_eq in Hkey. unfold tally. rewrite Hkey, lookup_insert_eq.
    simpl List.length. rewrite Nat2Z.inj_succ. fold n'.
    replace (Z.succ n' =? 0) with false by (symmetry; apply Z.eqb_neq; lia).
    destruct (n' =? 0) eqn:E; simpl; f_equal.
    + apply Z.eqb_eq in E. lia.
    + lia.
  - apply String.eqb_neq in Hkey. unfold tally.
    rewrite lookup_insert_ne by exact Hkey. reflexivity.
Qed.

(** X12.  [usersByRole] has, for each role, the number of cached records with
    that role, a role that no record has being absent rather than zero; it
    has no other key, and its counts add up to [totalUsers]. *)
Theorem usersByRole_counts (st : State) :
  (forall r,
     let n := Z.of_nat (List.length
                (List.filter (fun u => bool_decide (role u = r))
                   (usersState st))) in
     usersByRole st !! role_name r = if n =? 0 then None else Some n) /\
  (forall key, key <> "admin" -> key <> "user" ->
     usersByRole st !! key = None) /\
  default 0 (usersByRole st !! "admin") + default 0 (usersByRole st !! "user") =
    totalUsers st.
Proof.
  assert (forall r,
            usersByRole st !! role_name r =
            let n := Z.of_nat (List.length
                       (List.filter (fun u => bool_decide (role u = r))
                          (usersState st))) in
            if n =? 0 then None else Some n) as Hrole.
  { intros r. unfold usersByRole. rewrite tally_fold. cbv zeta.
    rewrite lookup_empty. simpl default.
    rewrite (List.filter_ext _ (fun u => bool_decide (role u = r))).
    - now destruct (_ =? 0).
    - intros u. destruct (role u), r; reflexivity. }
  split; [exact Hrole|]. split.
  - intros key Ha Hu. unfold usersByRole. rewrite tally_fold. cbv zeta.
    rewrite (filter_ext _ (fun _ => false)).
    + assert (forall l : list User, List.filter (fun _ => false) l = [])
        as -> by (intros l; induction l; simpl; auto).
      reflexivity.
    + intros u. apply String.eqb_neq. destruct (role u); simpl; congruence.
  - change "admin" with (role_name role_admin).
    change "user" with (role_name role_user). rewrite !Hrole. cbv zeta.
    assert (forall n, default 0 (if n =? 0 then None else Some n) = n) as Hdef.
    { intros n. destruct (Z.eqb_spec n 0); simpl; congruence. }
    rewrite !Hdef. unfold totalUsers. clear Hrole.
    induction (usersState st) as [|u l IH]; [reflexivity|].
    simpl. destruct (role u); simpl; lia.
Qed.

(** ** Departments *)

Section StringOrder.
Local Open Scope string_scope.

Lemma compare_lt_trans (a b c : string) :
  String.compare a b = Lt -> String.compare b c = Lt -> String.compare a c = Lt.
Proof.
  revert b c. induction a as [|x a IH]; intros [|y b] [|z c]; simpl;
    try discriminate; try reflexivity.
  unfold Ascii.compare.
  destruct (N.compare_spec (N_of_ascii x) (N_of_ascii y)) as [Hxy|Hxy|Hxy],
           (N.compare_spec (N_of_ascii y) (N_of_ascii z)) as [Hyz|Hyz|Hyz],
           (N.compare_spec (N_of_ascii x) (N_of_ascii z)) as [Hxz|Hxz|Hxz];
    try discriminate; try reflexivity; try lia.
  apply IH.
Qed.

Lemma leb_trans (a b c : string) :
  String.leb a b = true -> String.leb b c = true -> String.leb a c = true.
Proof.
  unfold String.leb.
  destruct (String.compare a b) eqn:Hab; [| |discriminate]; intros _.
  - apply String.compare_eq_iff in Hab as ->. trivial.
  - destruct (String.compare b c) eqn:Hbc; [| |discriminate]; intros _.
    + apply String.compare_eq_iff in Hbc as <-. now rewrite Hab.
    + now rewrite (compare_lt_trans a b c Hab Hbc).
Qed.

Lemma ltb_leb_ne (a b : string) :
  String.ltb a b = true <-> String.leb a b = true /\ a <> b.
Proof.
  unfold String.ltb, String.leb. destruct (String.compare a b) eqn:Hab.
  - apply String.compare_eq_iff in Hab. split; [discriminate|]. tauto.
  - split; [|reflexivity]. intros _. split; [reflexivity|]. intros ->.
    pose proof (String.compare_antisym b b) as H. rewrite Hab in H.
    discriminate.
  - split; [discriminate|]. intros [[=] _].
Qed.

Lemma sort_insert_elem (x y : string) (l : list string) :
  y ∈ sort_insert x l <-> y = x \/ y ∈ l.
Proof.
  induction l as [|a l IH]; simpl.
  - rewrite list_elem_of_singleton, elem_of_nil. tauto.
  - destruct (String.leb x a); rewrite !elem_of_cons; [tauto|].
    rewrite IH. tauto.
Qed.

Lemma sort_elem (y : string) (l : list string) : y ∈ sort l <-> y ∈ l.
Proof.
  induction l as [|a l IH]; simpl; [reflexivity|].
  rewrite sort_insert_elem, elem_of_cons, IH. reflexivity.
Qed.

Lemma sort_insert_NoDup (x : string) (l : list string) :
  x ∉ l -> NoDup l -> NoDup (sort_insert x l).
Proof.
  induction l as [|a l IH]; simpl; intros Hx Hl.
  - apply NoDup_singleton.
  - destruct (String.leb x a); [now apply NoDup_cons|].
    apply NoDup_cons in Hl as [Ha Hl]. apply not_elem_of_cons in Hx as [Hxa Hx].
    apply NoDup_cons. split; [|now apply IH].
    rewrite sort_insert_elem. intros [->|H]; contradiction.
Qed.

Lemma sort_NoDup (l : list string) : NoDup l -> NoDup (sort l).
Proof.
  induction l as [|a l IH]; simpl; intros Hl; [constructor|].
  apply NoDup_cons in Hl as [Ha Hl].
  apply sort_insert_NoDup; [now rewrite sort_elem | now apply IH].
Qed.

Lemma sort_insert_sorted (x : string) (l : list string) :
  StronglySorted (fun a b => String.leb a b = true) l ->
  StronglySorted (fun a b => String.leb a b = true) (sort_insert x l).
Proof.
  induction l as [|a l IH]; simpl; intros Hl.
  - repeat constructor.
  - apply StronglySorted_inv in Hl as [Hl Ha].
    destruct (String.leb x a) eqn:Hxa.
    + constructor; [now constructor|]. constructor; [exact Hxa|].
      eapply Forall_impl; [exact Ha|]. intros z Hz. simpl in Hz.
      now apply (leb_trans x a z).
    + constructor; [now apply IH|].
      apply Forall_forall. intros z Hz.
      apply sort_insert_elem in Hz as [Hz|Hz].
      * subst z.
        destruct (String.leb_total a x) as [H|H]; [exact H|congruence].
      * rewrite Forall_forall in Ha. now apply Ha.
Qed.

Lemma sort_sorted (l : list string) :
  StronglySorted (fun a b => String.leb a b = true) (sort l).
Proof.
  induction l as [|a l IH]; simpl; [constructor|].
  now apply sort_insert_sorted.
Qed.

Lemma sorted_distinct_strict (l : list string) :
  StronglySorted (fun a b => String.leb a b = true) l -> NoDup l ->
  StronglySorted (fun a b => String.ltb a b = true) l.
Proof.
  induction 1 as [|a l Hl IH Ha]; intros Hnd; [constructor|].
  apply NoDup_cons in Hnd as [Hna Hnd]. constructor; [now apply IH|].
  rewrite Forall_forall in *. intros z Hz. apply ltb_leb_ne.
  split; [now apply Ha|]. intros ->. contradiction.
Qed.

Lemma existsb_eqb_elem (x : string) (l : list string) :
  existsb (String.eqb x) l = true <-> x ∈ l.
Proof.
  rewrite existsb_exists. split.
  - intros (y & Hy & ->%String.eqb_eq). now apply list_elem_of_In.
  - intros Hx. exists x. split; [now apply list_elem_of_In|].
    apply String.eqb_refl.
Qed.

Lemma Set_spread_fold (l seen : list string) :
  NoDup seen ->
  let result :=
    foldl (fun seen x =>
             if existsb (String.eqb x) seen then seen else seen ++ [x])%list
      seen l in
  NoDup result /\ forall y, y ∈ result <-> y ∈ seen \/ y ∈ l.
Proof.
  revert seen. induction l as [|a l IH]; intros seen Hnd; simpl.
  - split; [exact Hnd|]. intros y. rewrite elem_of_nil. tauto.
  - destruct (existsb (String.eqb a) seen) eqn:Ha.
    + apply existsb_eqb_elem in Ha. destruct (IH seen Hnd) as [H1 H2].
      split; [exact H1|]. intros y. rewrite H2, elem_of_cons.
      split; [tauto|]. intros [H|[->|H]]; auto.
    + assert (a ∉ seen) as Hna.
      { intros H%existsb_eqb_elem. congruence. }
      assert (NoDup (seen ++ [a])%list) as Hnd'.
      { apply NoDup_app. split; [exact Hnd|]. split; [|apply NoDup_singleton].
        intros x Hx ->%list_elem_of_singleton. contradiction. }
      destruct (IH _ Hnd') as [H1 H2]. split; [exact H1|].
      intros y. rewrite H2, elem_of_app, list_elem_of_singleton, elem_of_cons.
      tauto.
Qed.
End StringOrder.

Lemma getDepartments_spec (st : State) :
  StronglySorted (fun a b => String.ltb a b = true) (getDepartments st) /\
  NoDup (getDepartments st) /\
  forall d, d ∈ getDepartments st <->
    d <> "" /\ exists u, u ∈ usersState st /\ department u = Some d.
Proof.
  unfold getDepartments. cbv zeta.
  set (departments := omap (fun dept => dept)
         (List.filter truthy_opt (map department (usersState st)))).
  destruct (Set_spread_fold departments [] (NoDup_nil_2)) as [Hnd Hin].
  fold (Set_spread departments) in Hnd, Hin.
  assert (NoDup (sort (Set_spread departments))) as Hnd'
    by now apply sort_NoDup.
  split; [apply sorted_distinct_strict; [apply sort_sorted | exact Hnd']|].
  split; [exact Hnd'|].
  intros d. rewrite sort_elem, Hin, elem_of_nil. unfold departments.
  rewrite list_elem_of_omap. split.
  - intros [[]|(o & Ho & ->)]. apply list_elem_of_In, filter_In in Ho as [Ho Ht].
    apply in_map_iff in Ho as (u & Hu & Hin'). simpl in Ht.
    split.
    + intros ->. discriminate Ht.
    + exists u. split; [now apply list_elem_of_In | exact Hu].
  - intros (Hd & u & Hu & Hdep). right. exists (Some d). split; [|reflexivity].
    apply list_elem_of_In, filter_In. split.
    + apply in_map_iff. exists u. split; [exact Hdep|now apply list_elem_of_In].
    + simpl. destruct (truthy d) eqn:Ht; [reflexivity|].
      apply truthy_false in Ht. contradiction.
Qed.

(** X13.  The departments offered are exactly the non-empty departments some
    cached record has, each once, in strictly ascending order. *)
Theorem getDepartments_sorted_distinct (st : State) :
  StronglySorted (fun a b => String.ltb a b = true) (getDepartments st) /\
  NoDup (getDepartments st) /\
  forall d, d ∈ getDepartments st <->
    d <> "" /\ exists u, u ∈ usersState st /\ department u = Some d.
Proof. exact (getDepartments_spec st). Qed.

(** X14.  What the department dropdown offers can be filtered by: every listed
    department selects at least one record, and selects exactly the cached
    records of that department. *)
Theorem listed_department_selects_its_records
    (toLowerCase : string -> string) (st : State) (d : string) :
  d ∈ getDepartments st ->
  let picked :=
    filterUsers toLowerCase (UserFilter.mk None None None (Some d)) st in
  picked <> [] /\
  picked =
    List.filter (fun u => bool_decide (department u = Some d)) (usersState st).
Proof.
  intros Hd. apply getDepartments_spec in Hd as (Hne & u & Hu & Hdep).
  assert (truthy d = true) as Ht.
  { destruct (truthy d) eqn:E; [reflexivity|].
    apply truthy_false in E. contradiction. }
  unfold filterUsers. simpl. rewrite Ht. split; [|reflexivity].
  intros Hnil.
  assert (u ∈ List.filter (fun u => bool_decide (department u = Some d))
                (usersState st)) as Hin.
  { apply list_elem_of_In, filter_In. split; [now apply list_elem_of_In|].
    now apply bool_decide_eq_true. }
  rewrite Hnil in Hin. now apply elem_of_nil in Hin.
Qed.

Lemma listed_department_selects_its_records_witness :
  filterUsers ascii_lower (UserFilter.mk None None None (Some "Marketing"))
    Fixture.office <> [].
Proof.
  refine (proj1 (listed_department_selects_its_records ascii_lower
                   Fixture.office "Marketing" _)).
  vm_compute. apply list_elem_of_In. simpl. auto.
Defined.

(** ** Pages *)

Lemma windows_concat {A : Type} (sz n : nat) (l : list A) :
  (List.length l <= n * sz)%nat ->
  List.concat ((fun q => take sz (drop (q * sz) l)) <$> seq 0 n) = l.
Proof.
  revert l. induction n as [|n IH]; intros l Hlen.
  - destruct l; [reflexivity | simpl in Hlen; lia].
  - simpl seq. rewrite fmap_cons. simpl List.concat. rewrite drop_0.
    rewrite <- seq_shift, <- list_fmap_compose.
    rewrite (list_fmap_ext _ (fun q => take sz (drop (q * sz) (drop sz l)))
               (seq 0 n)).
    + rewrite IH by (rewrite length_drop; lia). apply take_drop.
    + intros _ q _. simpl. now rewrite drop_drop.
Qed.

Lemma data_is_window (toLowerCase : string -> string) (st : State)
    (pg sz : Z) (criteria : option UserFilter.t) :
  1 <= pg -> 1 <= sz ->
  data (getPaginatedUsers toLowerCase pg sz criteria st) =
    take (Z.to_nat sz)
      (drop (Z.to_nat (pg - 1) * Z.to_nat sz)
         match criteria with
         | Some c => filterUsers toLowerCase c st
         | None => usersState st
         end).
Proof.
  intros Hpg Hsz. unfold getPaginatedUsers. simpl.
  rewrite slice_window by nia. f_equal; [f_equal; lia|]. f_equal. nia.
Qed.

(** X15.  The pages [1] to [totalPages] split the filtered list: laid end to end
    they give it back, no record missing, repeated or out of order. *)
Theorem pages_partition_filtered (toLowerCase : string -> string)
    (st : State) (sz : Z) (criteria : option UserFilter.t) :
  1 <= sz ->
  let filtered :=
    match criteria with
    | Some c => filterUsers toLowerCase c st
    | None => usersState st
    end in
  let n := totalPages (getPaginatedUsers toLowerCase 1 sz criteria st) in
  List.concat
    ((fun pg => data (getPaginatedUsers toLowerCase pg sz criteria st))
       <$> pages n) =
    filtered.
Proof.
  intros Hsz filtered n.
  pose proof (Math_ceil_div_spec (Z.of_nat (List.length filtered)) sz
                ltac:(lia)) as [_ Hn].
  change (Math_ceil_div (Z.of_nat (List.length filtered)) sz) with n in Hn.
  assert (0 <= n) as Hn0 by nia.
  unfold pages. rewrite <- list_fmap_compose.
  etransitivity;
    [|apply (windows_concat (Z.to_nat sz) (Z.to_nat n) filtered); nia].
  f_equal. rewrite <- seq_shift, <- list_fmap_compose.
  apply list_fmap_ext. intros _ q _. unfold compose.
  rewrite data_is_window by lia. fold filtered. f_equal. f_equal. lia.
Qed.

Lemma pages_partition_filtered_witness :
  List.concat ((fun pg => data (getPaginatedUsers ascii_lower pg 10 None
                             Sample.twentyfive))
            <$> pages 3) = usersState Sample.twentyfive.
Proof.
  apply (pages_partition_filtered ascii_lower Sample.twentyfive 10 None). lia.
Defined.

(** X16.  No page holds more than [pageSize] records; every page before the last
    holds exactly [pageSize]; the last page holds at least one; and a page
    after the last holds none. *)
Theorem page_lengths (toLowerCase : string -> string) (st : State)
    (pg sz : Z) (criteria : option UserFilter.t) :
  1 <= pg -> 1 <= sz ->
  let res := getPaginatedUsers toLowerCase pg sz criteria st in
  let len := Z.of_nat (List.length (data res)) in
  len <= sz /\
  (pg < totalPages res -> len = sz) /\
  (pg = totalPages res -> 1 <= len /\ len = total res - (pg - 1) * sz) /\
  (totalPages res < pg -> data res = []).
Proof.
  intros Hpg Hsz res len.
  set (filtered := match criteria with
                   | Some c => filterUsers toLowerCase c st
                   | None => usersState st
                   end).
  pose proof (Math_ceil_div_spec (Z.of_nat (List.length filtered)) sz
                ltac:(lia)) as [Hlo Hhi].
  change (Math_ceil_div (Z.of_nat (List.length filtered)) sz)
    with (totalPages res) in Hlo, Hhi.
  change (total res) with (Z.of_nat (List.length filtered)).
  assert (len = Z.min sz (Z.max 0 (Z.of_nat (List.length filtered) -
                                    (pg - 1) * sz))) as Hlen.
  { unfold len, res. rewrite data_is_window by lia. fold filtered.
    rewrite length_take, length_drop.
    assert (Z.of_nat (Z.to_nat (pg - 1) * Z.to_nat sz) = (pg - 1) * sz) as Hmul
      by (rewrite Nat2Z.inj_mul, !Z2Nat.id; lia).
    lia. }
  split; [lia|]. split; [|split].
  - intros Hlt. nia.
  - intros Heq. rewrite <- Heq in Hlo, Hhi. nia.
  - intros Hgt. apply length_zero_iff_nil.
    assert (len = 0) as H0 by nia. unfold len in H0. lia.
Qed.

Lemma page_lengths_witness :
  Z.of_nat (List.length (data (getPaginatedUsers ascii_lower 2 10 None
                                 Sample.twentyfive)))
    = 10.
Proof.
  refine (proj1 (proj2 (page_lengths ascii_lower Sample.twentyfive 2 10 None _ _)) _).
  - lia.
  - lia.
  - vm_compute. reflexivity.
Defined.

(** X17.  Page numbers below one are not refused.  Page [0] holds no record.  A
    negative page [-k] holds the records counted back from the end of the
    filtered list: those at the indexes from [len - (k+1)*pageSize] up to,
    not including, [len - k*pageSize]; a full window when the list is that
    long. *)
Theorem page_below_one (toLowerCase : string -> string) (st : State)
    (pg sz : Z) (criteria : option UserFilter.t) :
  pg <= 0 -> 1 <= sz ->
  let filtered :=
    match criteria with
    | Some c => filterUsers toLowerCase c st
    | None => usersState st
    end in
  let len := Z.of_nat (List.length filtered) in
  let res := getPaginatedUsers toLowerCase pg sz criteria st in
  total res = len /\
  (pg = 0 -> data res = []) /\
  (pg < 0 ->
   data res =
     take (Z.to_nat (Z.max (len + pg * sz) 0 - Z.max (len + (pg - 1) * sz) 0))
       (drop (Z.to_nat (Z.max (len + (pg - 1) * sz) 0)) filtered)) /\
  (pg < 0 -> (1 - pg) * sz <= len ->
   Z.of_nat (List.length (data res)) = sz).
Proof.
  intros Hpg Hsz filtered len res.
  assert (pg < 0 ->
          data res =
            take (Z.to_nat (Z.max (len + pg * sz) 0 -
                            Z.max (len + (pg - 1) * sz) 0))
              (drop (Z.to_nat (Z.max (len + (pg - 1) * sz) 0)) filtered))
    as Hneg.
  { intros Hlt. unfold res, getPaginatedUsers, slice. simpl. fold filtered len.
    replace ((pg - 1) * sz <? 0) with true by (symmetry; apply Z.ltb_lt; nia).
    replace ((pg - 1) * sz + sz <? 0) with true
      by (symmetry; apply Z.ltb_lt; nia).
    replace ((pg - 1) * sz + sz) with (pg * sz) by lia. reflexivity. }
  split; [reflexivity|]. split; [|split; [exact Hneg|]].
  - intros ->. unfold res, getPaginatedUsers, slice. simpl. fold filtered len.
    destruct (Z.ltb_spec ((0 - 1) * sz) 0); [|lia].
    destruct (Z.ltb_spec ((0 - 1) * sz + sz) 0); [lia|].
    match goal with
    | |- take ?n _ = _ => replace n with 0%nat by lia
    end.
    apply take_0.
  - intros Hlt Hfull. rewrite (Hneg Hlt), length_take, length_drop.
    fold len. unfold len in *. nia.
Qed.

Lemma page_below_one_witness :
  data (getPaginatedUsers ascii_lower 0 10 None Sample.twentyfive) = [] /\
  data (getPaginatedUsers ascii_lower (-1) 10 None Sample.twentyfive) =
    take 10 (drop 5 (usersState Sample.twentyfive)).
Proof.
  split.
  - refine (proj1 (proj2 (page_below_one ascii_lower Sample.twentyfive 0 10 None
                           _ _)) _);
      lia.
  - refine (proj1 (proj2 (proj2 (page_below_one ascii_lower Sample.twentyfive
                                   (-1) 10 None
                                   _ _))) _); lia.
Defined.

(** ** More about the filter *)

Lemma equal_ignoring_case_empty (s t : string) :
  equal_ignoring_case s t -> (s = "" <-> t = "").
Proof. destruct s, t; simpl; try contradiction; split; congruence. Qed.

(** X18.  The case of the search term is immaterial: two ASCII terms that
    differ at most in the case of their letters select the same records,
    whatever the other criteria are. *)
Theorem filter_ignores_case_of_term (toLowerCase : string -> string)
    (t1 t2 : string) (r : option UserRole) (s : option UserStatus)
    (d : option string) (st : State) :
  folds_ascii toLowerCase ->
  ascii_text t1 = true ->
  ascii_text t2 = true ->
  equal_ignoring_case t1 t2 ->
  filterUsers toLowerCase (UserFilter.mk (Some t1) r s d) st =
  filterUsers toLowerCase (UserFilter.mk (Some t2) r s d) st.
Proof.
  intros Hfold H1 H2 Hcase. rewrite !filterUsers_one_pass.
  apply List.filter_ext. intros u. unfold satisfiesb. simpl.
  assert (truthy t1 = truthy t2) as ->.
  { pose proof (equal_ignoring_case_empty t1 t2 Hcase) as Hempty.
    destruct (truthy t1) eqn:E1, (truthy t2) eqn:E2; trivial.
    - apply truthy_false in E2. apply Hempty in E2 as ->. discriminate E1.
    - apply truthy_false in E1. apply Hempty in E1 as ->. discriminate E2. }
  rewrite (Hfold t1 H1), (Hfold t2 H2).
  apply ascii_lower_equal_ignoring_case in Hcase. now rewrite Hcase.
Qed.

Lemma filter_ignores_case_of_term_witness :
  filterUsers ascii_lower (UserFilter.mk (Some "JO") None None None)
    Sample.three =
  filterUsers ascii_lower (UserFilter.mk (Some "jo") None None None)
    Sample.three.
Proof.
  apply (filter_ignores_case_of_term ascii_lower "JO" "jo" None None None
           Sample.three (fun s _ => eq_refl)); try reflexivity.
  simpl. unfold same_letter. vm_compute. repeat split; right; left; split;
    try split; try discriminate; reflexivity.
Defined.

(** X19.  Filtering what a filter returned: the same criteria select all
    of it again, and two sets of criteria applied one after the other
    select the same records in either order. *)
Theorem filters_compose (toLowerCase : string -> string)
    (c1 c2 : UserFilter.t) (st : State) :
  let narrowed (c : UserFilter.t) :=
    usersState_next (filterUsers toLowerCase c st) st in
  filterUsers toLowerCase c1 (narrowed c1) = filterUsers toLowerCase c1 st /\
  filterUsers toLowerCase c2 (narrowed c1) =
    filterUsers toLowerCase c1 (narrowed c2) /\
  filterUsers toLowerCase c2 (narrowed c1)
    `sublist_of` filterUsers toLowerCase c1 st.
Proof.
  cbv zeta. rewrite !filterUsers_one_pass. simpl. rewrite !filter_and.
  split; [|split].
  - apply List.filter_ext. intros u. now destruct (satisfiesb _ _ u).
  - apply List.filter_ext. intros u. apply andb_comm.
  - rewrite <- filter_and.
    generalize (List.filter (satisfiesb toLowerCase c1) (usersState st)).
    intros l. induction l as [|a l IH]; simpl; [constructor|].
    destruct (satisfiesb _ _ a); [now constructor|now apply sublist_cons].
Qed.

(** ** Signing in, impersonating, signing out *)

(** X20.  [login] accepts exactly the two built-in accounts.  For any other pair
    of name and password the observable fails and neither the auth state
    nor the storage changes.  For an accepted pair the user is the built-in
    record of the account's role, the state is authenticated and not
    impersonating, and the session is stored with an expiry one hour after
    the clock's reading. *)
Theorem login_accepts_builtin_accounts (c : Auth.LoginCredentials)
    (mockToken : string) (now : Z) (w : Auth.World) :
  let done := Auth.login c mockToken now w in
  let account (r : UserRole) :=
    c = Auth.mkLogin (role_name r) (role_name r ++ "123")%string in
  (forall r, account r ->
     snd done = next (Auth.mkResponse (Auth.MOCK_USERS r) mockToken 3600) /\
     Auth.authState (fst done) =
       Auth.mkAuth (Some (Auth.MOCK_USERS r)) (Some mockToken) true false None /\
     Auth.localStorage (fst done) !! "auth_token" =
       Some (Auth.stored_token mockToken) /\
     Auth.localStorage (fst done) !! "auth_user" =
       Some (Auth.stored_user (Auth.MOCK_USERS r)) /\
     Auth.localStorage (fst done) !! "auth_expires" =
       Some (Auth.stored_time (now + 3600000)) /\
     Auth.navigations (fst done) = Auth.navigations w) /\
  ((forall r, ~ account r) ->
     done = (w, error (Error "Invalid username or password"))).
Proof.
  destruct c as [name pass]. cbv zeta. split.
  - intros r [= -> ->]. unfold Auth.saveSession, Auth.setItem.
    destruct r; simpl; repeat split;
      rewrite ?lookup_insert_ne by discriminate; now rewrite lookup_insert_eq.
  - intros Hnone. unfold Auth.login, Auth.CREDENTIALS. simpl.
    assert (forall r, String.eqb (role_name r) name &&
                      String.eqb (role_name r ++ "123") pass = false) as Hno.
    { intros r. apply not_true_is_false.
      intros [<-%String.eqb_eq <-%String.eqb_eq]%andb_true_iff.
      now apply (Hnone r). }
    pose proof (Hno role_admin) as Ha. pose proof (Hno role_user) as Hu.
    simpl in Ha, Hu. now rewrite Ha, Hu.
Qed.

Lemma step_keeps_consistent (op : Auth.AuthOp) (w : Auth.World) :
  Auth.consistent (Auth.authState w) ->
  Auth.consistent (Auth.authState (Auth.auth_step op w)).
Proof.
  destruct w as [[u t a i o] ls nav]. unfold Auth.consistent. simpl.
  intros (Hauth & Htok & Himp & Hplain).
  destruct op as [c tk now| |v|]; simpl.
  - unfold Auth.login.
    destruct (List.find _ Auth.CREDENTIALS) as [cred|]; simpl.
    + repeat split; eauto; try discriminate. intros ? [= <-]. eauto.
    + auto.
  - repeat split; try discriminate; intros [? [=]].
  - unfold Auth.impersonateUser. simpl. destruct u as [current|]; [|simpl; auto].
    destruct (bool_decide (role current = role_admin)) eqn:Hadmin;
      [|simpl; auto].
    apply bool_decide_eq_true in Hadmin. simpl.
    repeat split; eauto; try discriminate.
    + intros _. apply Htok. eauto.
    + destruct i; [now apply Himp|].
      destruct (Hplain eq_refl) as [_ Hbuilt].
      destruct (Hbuilt current eq_refl) as [r ->]. now destruct r.
  - unfold Auth.stopImpersonation. simpl. destruct i; [|simpl; auto].
    destruct (Himp eq_refl) as [Ha Ho]. subst a o. simpl.
    repeat split; eauto; try discriminate.
    + intros _. apply Htok, Hauth. reflexivity.
    + intros ? [= <-]. now exists role_admin.
Qed.

Lemma auth_run_consistent (ops : list Auth.AuthOp) :
  Auth.consistent (Auth.authState (Auth.auth_run ops Auth.initial)).
Proof.
  assert (forall w, Auth.consistent (Auth.authState w) ->
            Auth.consistent (Auth.authState (Auth.auth_run ops w))) as Hrun.
  { induction ops as [|op ops IH]; intros w Hw; [exact Hw|].
    unfold Auth.auth_run. simpl. apply IH. now apply step_keeps_consistent. }
  apply Hrun. unfold Auth.consistent. simpl.
  repeat split; try discriminate; intros [? [=]].
Qed.

(** X21.  Whatever sequence of logins, logouts, impersonations and returns is
    run from the signed-out state, the auth state stays consistent: it is
    authenticated exactly when it has a user and exactly when it has a
    token; while impersonating it is authenticated and remembers the
    built-in administrator as the original user; while not impersonating
    it remembers no original user and its user, if any, is a built-in
    account. *)
Theorem auth_state_stays_consistent (ops : list Auth.AuthOp) :
  Auth.consistent (Auth.authState (Auth.auth_run ops Auth.initial)).
Proof. exact (auth_run_consistent ops). Qed.

(** X22.  However impersonations were chained, returning from impersonation
    signs the built-in administrator back in, with the token unchanged. *)
Theorem stop_returns_to_builtin_admin (ops : list Auth.AuthOp) :
  let w := Auth.auth_run ops Auth.initial in
  Auth.is_impersonating w = true ->
  Auth.authState (Auth.stopImpersonation w) =
    Auth.mkAuth (Some (Auth.MOCK_USERS role_admin))
      (Auth.token (Auth.authState w)) true false None /\
  Auth.isAdmin (Auth.stopImpersonation w) = true /\
  Auth.localStorage (Auth.stopImpersonation w) = Auth.localStorage w.
Proof.
  intros w Himp.
  destruct (auth_run_consistent ops) as (_ & _ & Horig & _).
  fold w in Horig. unfold Auth.is_impersonating in Himp.
  destruct (Horig Himp) as [_ Ho].
  unfold Auth.stopImpersonation, Auth.isAdmin, Auth.getCurrentUser.
  rewrite Himp, Ho. simpl. auto.
Qed.

Lemma stop_returns_to_builtin_admin_witness :
  Auth.getCurrentUser
    (Auth.stopImpersonation
       (Auth.auth_run
          [Auth.Login Fixture.admin_login "t" 0;
           Auth.Impersonate Sample.johndoe;
           Auth.Impersonate Sample.janesmith] Auth.initial)) =
  Some (Auth.MOCK_USERS role_admin).
Proof.
  unfold Auth.getCurrentUser.
  rewrite (proj1 (stop_returns_to_builtin_admin
                    [Auth.Login Fixture.admin_login "t" 0;
                     Auth.Impersonate Sample.johndoe;
                     Auth.Impersonate Sample.janesmith] eq_refl)).
  reflexivity.
Defined.

(** X23.  An administrator who is not impersonating can look at the application
    as any user and come back: the impersonation is granted, the current
    user becomes the impersonated one, and returning restores the service,
    auth state and storage, exactly as it was. *)
Theorem impersonate_then_stop_restores (ops : list Auth.AuthOp) (u : User) :
  let w := Auth.auth_run ops Auth.initial in
  Auth.isAdmin w = true ->
  Auth.is_impersonating w = false ->
  exists w',
    Auth.impersonateUser u w = Auth.returned w' /\
    Auth.getCurrentUser w' = Some u /\
    Auth.is_impersonating w' = true /\
    Auth.stopImpersonation w' = w.
Proof.
  intros w Hadmin Himp.
  pose proof (auth_run_consistent ops) as (Hauth & _ & _ & Hplain).
  fold w in Hauth, Hplain. revert Hadmin Himp Hauth Hplain.
  destruct w as [[cur tk a i o] ls nav].
  unfold Auth.isAdmin, Auth.is_impersonating, Auth.getCurrentUser,
    Auth.impersonateUser, Auth.stopImpersonation. simpl.
  destruct cur as [current|]; [|discriminate].
  intros Hadmin -> Hauth Hplain. rewrite Hadmin. simpl.
  destruct (Hplain eq_refl) as [-> _].
  assert (a = true) as -> by (apply Hauth; eauto).
  eexists. repeat split.
Qed.

Lemma impersonate_then_stop_restores_witness :
  exists w',
    Auth.impersonateUser Sample.janesmith Fixture.signed_in_admin =
      Auth.returned w' /\
    Auth.stopImpersonation w' = Fixture.signed_in_admin.
Proof.
  destruct (impersonate_then_stop_restores
              [Auth.Login Fixture.admin_login "header.payload.signature" 1000]
              Sample.janesmith eq_refl eq_refl) as (w' & H1 & _ & _ & H2).
  exists w'. split; assumption.
Defined.

(** X24.  Only an administrator may impersonate.  For anyone else, and when
    nobody is signed in, the call throws and nothing changes; so an
    administrator who is looking at the application as a plain user cannot
    impersonate further from there. *)
Theorem impersonation_needs_admin (u v : User) (w : Auth.World) :
  (Auth.isAdmin w = false ->
   Auth.impersonateUser u w =
     Auth.thrown (Error "Only admins can impersonate users")) /\
  (Auth.isAdmin w = true -> role u = role_user ->
   exists w',
     Auth.impersonateUser u w = Auth.returned w' /\
     Auth.isAdmin w' = false /\
     Auth.impersonateUser v w' =
       Auth.thrown (Error "Only admins can impersonate users") /\
     Auth.auth_step (Auth.Impersonate v) w' = w').
Proof.
  unfold Auth.isAdmin, Auth.getCurrentUser, Auth.impersonateUser,
    Auth.auth_step, Auth.impersonateUser.
  destruct (Auth.user (Auth.authState w)) as [current|]; split;
    try discriminate; try reflexivity.
  - now intros ->.
  - intros -> Hu. eexists. split; [reflexivity|]. simpl. rewrite Hu. simpl.
    auto.
Qed.

(** X25.  The administration route opens exactly for an authenticated state
    whose current user is an administrator.  A signed-in user of another
    role is sent to the user dashboard, and a visitor who is not signed in
    is sent to the login page with the address to return to. *)
Theorem admin_route_needs_admin (url : string) (w : Auth.World) :
  Auth.admin_route_opens url w = Auth.is_authenticated w && Auth.isAdmin w /\
  (forall u, Auth.getCurrentUser w = Some u -> role u = role_user ->
     Auth.roleGuard (Some ["admin"]) w =
       (Auth.navigate (Auth.mkNavigation ["/user"] None) w, false)) /\
  (Auth.is_authenticated w = false ->
     Auth.authGuard url w =
       (Auth.navigate (Auth.mkNavigation ["/login"] (Some url)) w, false)) /\
  (Auth.admin_route_opens url w = true ->
     Auth.authGuard url w = (w, true) /\
     Auth.roleGuard (Some ["admin"]) w = (w, true)).
Proof.
  unfold Auth.admin_route_opens, Auth.authGuard, Auth.roleGuard, Auth.isAdmin.
  destruct (Auth.is_authenticated w) eqn:Ha;
    destruct (Auth.getCurrentUser w) as [u|] eqn:Hu; simpl;
    try destruct (role u) eqn:Hr; simpl; repeat split;
    try discriminate; try reflexivity;
    try (intros ? [= <-]; congruence).
Qed.

Lemma logout_storage (w : Auth.World) (key : string) :
  Auth.localStorage (Auth.logout w) !! key =
    if bool_decide (key ∈ ["auth_token"; "auth_user"; "auth_expires"])
    then None
    else Auth.localStorage w !! key.
Proof.
  unfold Auth.logout. simpl. case_bool_decide as Hkey.
  - repeat (apply elem_of_cons in Hkey as [->|Hkey]);
      [| | |now apply elem_of_nil in Hkey];
      rewrite ?lookup_delete_ne by discriminate; apply lookup_delete_eq.
  - rewrite !lookup_delete_ne; [reflexivity| | |];
      intros <-; apply Hkey; repeat constructor.
Qed.

(** X26.  Logging out signs everybody out, impersonation included: the auth
    state is the signed-out one, the three session keys are gone from the
    storage while every other key keeps its value, the router is sent to
    the login page, and both guards refuse afterwards. *)
Theorem logout_clears_session (url : string) (w : Auth.World) :
  let w' := Auth.logout w in
  Auth.authState w' = Auth.signed_out /\
  (forall key,
     Auth.localStorage w' !! key =
       if bool_decide (key ∈ ["auth_token"; "auth_user"; "auth_expires"])
       then None
       else Auth.localStorage w !! key) /\
  Auth.navigations w' =
    Auth.navigations w ++ [Auth.mkNavigation ["/login"] None] /\
  snd (Auth.authGuard url w') = false /\
  snd (Auth.roleGuard None w') = false /\
  Auth.admin_route_opens url w' = false.
Proof.
  cbv zeta. repeat split. intros key. apply logout_storage.
Qed.

(** X27.  A login followed by a logout leaves the storage as it was before the
    login, when none of the three session keys was in it. *)
Theorem login_logout_restores_storage (c : Auth.LoginCredentials)
    (mockToken : string) (now : Z) (w : Auth.World) :
  Auth.localStorage w !! "auth_token" = None ->
  Auth.localStorage w !! "auth_user" = None ->
  Auth.localStorage w !! "auth_expires" = None ->
  let w' := Auth.logout (fst (Auth.login c mockToken now w)) in
  Auth.localStorage w' = Auth.localStorage w /\
  Auth.authState w' = Auth.signed_out.
Proof.
  intros Ht Hu He. cbv zeta. split; [|reflexivity].
  apply map_eq. intros key.
  rewrite logout_storage. case_bool_decide as Hkey.
  - repeat (apply elem_of_cons in Hkey as [->|Hkey]);
      [| | |now apply elem_of_nil in Hkey]; congruence.
  - unfold Auth.login.
    destruct (List.find _ Auth.CREDENTIALS); simpl; [|reflexivity].
    rewrite !lookup_insert_ne; [reflexivity| | |];
      intros <-; apply Hkey; repeat constructor.
Qed.

Lemma login_logout_restores_storage_witness :
  Auth.localStorage
    (Auth.logout (fst (Auth.login Fixture.admin_login "t" 0 Auth.initial))) = ∅.
Proof.
  apply (login_logout_restores_storage Fixture.admin_login "t" 0 Auth.initial);
    reflexivity.
Defined.

(** ** Error messages *)

Lemma getServerErrorMessage_listed (error : ErrorHandling.HttpFailure) :
  ErrorHandling.status error ∈ ErrorHandling.listed ->
  exists s, ErrorHandling.getServerErrorMessage error = ErrorHandling.a_string s
            /\ s <> "".
Proof.
  destruct error as [st msg p]. unfold ErrorHandling.listed,
    ErrorHandling.getServerErrorMessage. simpl. intros Hin.
  repeat (apply elem_of_cons in Hin as [->|Hin]);
    [eexists; split; [reflexivity|discriminate] ..|].
  now apply elem_of_nil in Hin.
Qed.

Lemma getServerErrorMessage_unlisted (error : ErrorHandling.HttpFailure) :
  ErrorHandling.status error ∉ ErrorHandling.listed ->
  ErrorHandling.getServerErrorMessage error =
    ErrorHandling.or_else
      (ErrorHandling.payload_message (ErrorHandling.payload error))
      (ErrorHandling.or_else (ErrorHandling.a_string (ErrorHandling.message error))
         (ErrorHandling.a_string "An error occurred. Please try again.")).
Proof.
  destruct error as [st msg p]. unfold ErrorHandling.listed,
    ErrorHandling.getServerErrorMessage. simpl. intros Hno.
  repeat match goal with
         | |- context [match ?x with _ => _ end] =>
             is_var x; destruct x
         end;
    try reflexivity; exfalso; apply Hno; rewrite !elem_of_cons; tauto.
Qed.

(** X28.  What [handleError] reports.  For an [ErrorEvent] the error's
    message is "Network error: " followed by the event's message.  For a
    status the service has a message of its own for, and whenever the
    server body's [message] is a string or falsy, the observable fails
    with an [Error] whose message is not empty.  Only for another status
    with a body whose [message] is a truthy value that is not a string is
    that value handed to [new Error]: the message is then its text, which
    may be empty, or the conversion throws. *)
Theorem handleError_reports_text (error : ErrorHandling.HttpFailure) :
  (forall text,
     ErrorHandling.payload error = ErrorHandling.ErrorEvent text ->
     ErrorHandling.handleError error =
       ErrorHandling.fails_with (Error ("Network error: " ++ text)%string)) /\
  (ErrorHandling.status error ∈ ErrorHandling.listed \/
   (forall shown, ErrorHandling.payload error <>
      ErrorHandling.server_body (ErrorHandling.not_a_string true shown)) ->
   exists m,
     ErrorHandling.handleError error = ErrorHandling.fails_with (Error m) /\
     m <> "") /\
  (forall shown,
     ErrorHandling.payload error =
       ErrorHandling.server_body (ErrorHandling.not_a_string true shown) ->
     ErrorHandling.status error ∉ ErrorHandling.listed ->
     ErrorHandling.handleError error =
       match shown with
       | Some s => ErrorHandling.fails_with (Error s)
       | None => ErrorHandling.fails_with_TypeError
       end) /\
  (forall app_message,
     ErrorHandling.handleApplicationError app_message <> "").
Proof.
  split; [|split; [|split]].
  - intros text Hp. unfold ErrorHandling.handleError. now rewrite Hp.
  - intros Hcase. unfold ErrorHandling.handleError.
    destruct (ErrorHandling.payload error) as [text|v] eqn:Hp.
    { eexists. split; [reflexivity|discriminate]. }
    destruct (decide (ErrorHandling.status error ∈ ErrorHandling.listed))
      as [Hin|Hno].
    { destruct (getServerErrorMessage_listed error Hin) as (s & -> & Hs).
      now exists s. }
    destruct Hcase as [Hin|Hbody]; [contradiction|].
    rewrite (getServerErrorMessage_unlisted error Hno), Hp.
    assert (exists m,
              ErrorHandling.or_else
                (ErrorHandling.a_string (ErrorHandling.message error))
                (ErrorHandling.a_string "An error occurred. Please try again.")
              = ErrorHandling.a_string m /\ truthy m = true) as (m & Hm & Ht).
    { simpl. destruct (truthy (ErrorHandling.message error)) eqn:Ht; eauto. }
    rewrite Hm. simpl ErrorHandling.payload_message.
    assert (forall s, truthy s = true -> s <> "") as Hne
      by (intros s H ->; discriminate H).
    destruct v as [s|[|] shown]; simpl.
    + destruct (truthy s) eqn:Hs; simpl; eauto.
    + now destruct (Hbody shown).
    + eauto.
  - intros shown Hp Hno. unfold ErrorHandling.handleError.
    rewrite Hp, (getServerErrorMessage_unlisted error Hno), Hp. reflexivity.
  - intros app_message. unfold ErrorHandling.handleApplicationError.
    destruct (truthy app_message) eqn:Ht; [|discriminate].
    intros ->. discriminate Ht.
Qed.

(** A body whose message is an empty array, with a status the service has
    no message for, is reported with the empty text. *)
Example empty_array_message_is_reported_empty :
  ErrorHandling.handleError
    (ErrorHandling.mkFailure 418 "Http failure response for /users: 418"
       (ErrorHandling.server_body
          (ErrorHandling.not_a_string true (Some "")))) =
  ErrorHandling.fails_with (Error "").
Proof. reflexivity. Qed.
